(** * script.js: particle field, render loop and light bursts

    A shallow embedding of [src/script.js].  JavaScript numbers are read as
    exact rationals ([Q]); integer-valued numbers (viewport sizes, the frame
    counter [life], the burst clock [t], animation-frame handles) are [Z].
    What the host supplies and the script cannot compute itself
    ([Math.random], [Math.sin], number-to-string conversion) is bundled in a
    [Host] record that every operation takes as a parameter. *)

From Stdlib Require Import ZArith QArith Qround Lia Lqa.
From stdpp Require Import gmap strings list pretty.

Local Open Scope Z_scope.

(** ** Host functions *)

Record Host := {
  Math_random : nat -> Q;   (* the n-th value returned by Math.random() *)
  Math_sin : Q -> Q;
  toString : Q -> string    (* Number::toString, used by string concatenation *)
}.

(** [Math.random()] returns a number in [0, 1). *)
Definition random_ok (host : Host) : Prop :=
  forall n : nat, (0 <= Math_random host n)%Q /\ (Math_random host n < 1)%Q.

(** [Math.floor] and [Math.round] (halves go up). *)
Definition Math_floor (q : Q) : Z := Qfloor q.
Definition Math_round (q : Q) : Z := Qfloor (q + (1 # 2))%Q.

Definition Math_max (a b : Q) : Q := if Qle_bool a b then b else a.
Definition Math_min (a b : Q) : Q := if Qle_bool a b then a else b.

(** [a > b] on numbers. *)
Definition gt (a b : Q) : bool := negb (Qle_bool a b).

(** [arr[i]] for a number [i]: [None] is [undefined]. *)
Definition index {A : Type} (arr : list A) (i : Z) : option A :=
  if i <? 0 then None else arr !! Z.to_nat i.

(** ** class Particle *)

Module Particle.

Record t := mk {
  x : Q; y : Q; vy : Q; vx : Q; size : Q;
  life : Z; ttl : Q;
  color : option string;
  alpha : Q; spin : Q
}.

Section WithHost.
Variable host : Host.
Local Abbreviation rnd := (Math_random host).

(** [reset()] overwrites every field; the draws of [Math.random()] are taken
    in source order starting at cursor [seed]. *)
Definition reset (W H : Z) (palette : list string) (seed : nat) : t * nat :=
  ({| x := rnd seed * inject_Z W;
      y := rnd (seed + 1)%nat * - inject_Z H * 0.5;
      vy := 0.2 + rnd (seed + 2)%nat * 1.2;
      vx := (rnd (seed + 3)%nat - 0.5) * 0.6;
      size := 1 + rnd (seed + 4)%nat * 4;
      life := 0;
      ttl := 80 + rnd (seed + 5)%nat * 220;
      color := index palette
                 (Math_floor (rnd (seed + 6)%nat
                              * inject_Z (Z.of_nat (length palette))));
      alpha := 0.08 + rnd (seed + 7)%nat * 0.9;
      spin := rnd (seed + 8)%nat * 0.06 - 0.03 |}%Q,
   (seed + 9)%nat).

(** [constructor() { this.reset(); }] *)
Definition new := reset.

(** The first four statements of [update()]: motion and ageing. *)
Definition advance (p : t) : t :=
  {| x := (x p + vx p)%Q;
     y := (y p + vy p)%Q;
     vy := vy p;
     vx := (vx p + Math_sin host (inject_Z (life p) * 0.01) * 0.002)%Q;
     size := size p;
     life := life p + 1;
     ttl := ttl p;
     color := color p;
     alpha := alpha p;
     spin := spin p |}.

(** The condition of the [if] that closes [update()]. *)
Definition expired (H : Z) (p : t) : bool :=
  gt (y p) (inject_Z H + 20) || gt (inject_Z (life p)) (ttl p).

Definition update (W H : Z) (palette : list string) (seed : nat) (p : t)
  : t * nat :=
  let p1 := advance p in
  if expired H p1 then reset W H palette seed else (p1, seed).

End WithHost.
End Particle.

(** ** The drawing surface

    The canvas bitmap is the list of fills made since it was last blank;
    [[]] is the blank (fully transparent) surface. *)

Inductive Paint :=
| FillOverlay (W H : Z)                      (* the gradient of [render] *)
| FillFlake (x y angle size globalAlpha : Q) (color : option string)
| FillBurst (cx cy r radius : Q) (inner : string).

(** [draw()] of a particle: one fill, the context being saved and restored
    around it. *)
Definition draw (p : Particle.t) : Paint :=
  FillFlake (Particle.x p) (Particle.y p)
            (inject_Z (Particle.life p) * Particle.spin p)%Q
            (Particle.size p)
            (Math_max 0.05 (Math_min (Particle.alpha p) 0.95))
            (Particle.color p).

(** ** Script state *)

Record Rect := { left : Q; top : Q; width : Q; height : Q }.

(** What [requestAnimationFrame] can be handed: [render], or the closure
    [frame] of one [burstLight] call with its captured variables. *)
Inductive Callback :=
| CbRender
| CbFrame (cx cy r : Q) (t : Z).

Record State := mkState {
  (* variables of the script *)
  W : Z;
  H : Z;
  particles : nat;                      (* the array the variable refers to *)
  PARTICLE_COUNT : Z;
  prefersReduced : bool;
  palette : list string;
  rafId : option Z;                     (* [None] is null *)
  (* the page *)
  arrays : gmap nat (list Particle.t);  (* array objects, by address *)
  bitmap : list Paint;
  callbacks : list (Z * Callback);      (* pending animation-frame callbacks *)
  handle : Z;                           (* last handle handed out *)
  checked : bool;                       (* motionToggle.checked *)
  seed : nat;                           (* draws of Math.random() so far *)
  exported : option nat                 (* window._TecladoHielo.particles *)
}.

Definition set_dims (w h : Z) (s : State) : State :=
  mkState w h (particles s) (PARTICLE_COUNT s) (prefersReduced s) (palette s)
          (rafId s) (arrays s) (bitmap s) (callbacks s) (handle s) (checked s)
          (seed s) (exported s).
Definition set_pool (l : nat) (pool : list Particle.t) (s : State) : State :=
  mkState (W s) (H s) l (PARTICLE_COUNT s) (prefersReduced s) (palette s)
          (rafId s) (<[l := pool]> (arrays s)) (bitmap s) (callbacks s)
          (handle s) (checked s) (seed s) (exported s).
Definition set_palette (pal : list string) (s : State) : State :=
  mkState (W s) (H s) (particles s) (PARTICLE_COUNT s) (prefersReduced s) pal
          (rafId s) (arrays s) (bitmap s) (callbacks s) (handle s) (checked s)
          (seed s) (exported s).
Definition set_rafId (r : option Z) (s : State) : State :=
  mkState (W s) (H s) (particles s) (PARTICLE_COUNT s) (prefersReduced s)
          (palette s) r (arrays s) (bitmap s) (callbacks s) (handle s)
          (checked s) (seed s) (exported s).
Definition set_bitmap (b : list Paint) (s : State) : State :=
  mkState (W s) (H s) (particles s) (PARTICLE_COUNT s) (prefersReduced s)
          (palette s) (rafId s) (arrays s) b (callbacks s) (handle s)
          (checked s) (seed s) (exported s).
Definition set_callbacks (c : list (Z * Callback)) (h : Z) (s : State) : State :=
  mkState (W s) (H s) (particles s) (PARTICLE_COUNT s) (prefersReduced s)
          (palette s) (rafId s) (arrays s) (bitmap s) c h (checked s) (seed s)
          (exported s).
Definition set_checked (b : bool) (s : State) : State :=
  mkState (W s) (H s) (particles s) (PARTICLE_COUNT s) (prefersReduced s)
          (palette s) (rafId s) (arrays s) (bitmap s) (callbacks s) (handle s)
          b (seed s) (exported s).
Definition set_seed (n : nat) (s : State) : State :=
  mkState (W s) (H s) (particles s) (PARTICLE_COUNT s) (prefersReduced s)
          (palette s) (rafId s) (arrays s) (bitmap s) (callbacks s) (handle s)
          (checked s) n (exported s).
Definition set_exported (e : option nat) (s : State) : State :=
  mkState (W s) (H s) (particles s) (PARTICLE_COUNT s) (prefersReduced s)
          (palette s) (rafId s) (arrays s) (bitmap s) (callbacks s) (handle s)
          (checked s) (seed s) e.

(** The array the variable [particles] refers to. *)
Definition pool (s : State) : list Particle.t :=
  default [] (arrays s !! particles s).

(** [!rafId]: null and 0 are falsy. *)
Definition falsy (r : option Z) : bool :=
  match r with None => true | Some h => h =? 0 end.

(** ** Animation-frame requests *)

Definition requestAnimationFrame (cb : Callback) (s : State) : Z * State :=
  let h := handle s + 1 in
  (h, set_callbacks (callbacks s ++ [(h, cb)]) h s).

(** [cancelAnimationFrame(id)]; null converts to handle 0. *)
Definition cancelAnimationFrame (id : option Z) (s : State) : State :=
  let h := match id with None => 0 | Some h => h end in
  set_callbacks (filter (fun e : Z * Callback => e.1 <> h) (callbacks s))
                (handle s) s.

(** ** The script *)

Section Script.
Variable host : Host.
Local Abbreviation rnd := (Math_random host).
Local Abbreviation show := (toString host).

(** The body of the [for] loop of [initParticles]: [n] pushes. *)
Fixpoint push_particles (n : nat) (W H : Z) (pal : list string)
    (acc : list Particle.t) (sd : nat) : list Particle.t * nat :=
  match n with
  | O => (acc, sd)
  | S k =>
      let '(p, sd') := Particle.new host W H pal sd in
      push_particles k W H pal (acc ++ [p]) sd'
  end.

(** [particles = []] allocates a new array object; the loop then fills it. *)
Definition initParticles (s : State) : State :=
  let l := fresh (dom (arrays s)) in
  let n := Z.to_nat (Z.max 20 (PARTICLE_COUNT s)) in
  let '(ps, sd) := push_particles n (W s) (H s) (palette s) [] (seed s) in
  set_seed sd (set_pool l ps s).

(** [resize()], the viewport being [w] by [h].  Assigning [canvas.width]
    blanks the bitmap. *)
Definition resize (w h : Z) (s : State) : State :=
  initParticles (set_bitmap [] (set_dims w h s)).

(** [for (let p of particles) { p.update(); p.draw(); }] *)
Fixpoint update_draw (W H : Z) (pal : list string) (ps : list Particle.t)
    (sd : nat) : list Particle.t * list Paint * nat :=
  match ps with
  | [] => ([], [], sd)
  | p :: rest =>
      let '(p', sd1) := Particle.update host W H pal sd p in
      let '(rest', paints, sd2) := update_draw W H pal rest sd1 in
      (p' :: rest', draw p' :: paints, sd2)
  end.

Definition render (s : State) : State :=
  (* clearRect(0,0,W,H) on the W-by-H canvas, then the overlay *)
  let s1 := set_bitmap [FillOverlay (W s) (H s)] s in
  let '(ps, paints, sd) :=
    update_draw (W s1) (H s1) (palette s1) (pool s1) (seed s1) in
  let s2 := set_seed sd
              (set_bitmap (bitmap s1 ++ paints)
                 (set_pool (particles s1) ps s1)) in
  if negb (prefersReduced s2) then
    let '(h, s3) := requestAnimationFrame CbRender s2 in
    set_rafId (Some h) s3
  else s2.

(** *** burstLight *)

Definition duration : Z := 420.

(** One call of the closure [frame]: the clock after [t += 16], the
    [progress] it paints with, and whether it asks for another frame. *)
Definition tick (t : Z) : Z * Q * bool :=
  let t' := t + 16 in
  (t', inject_Z t' / inject_Z duration, t' <? duration)%Q.

Definition frame (cx cy r : Q) (t : Z) (s : State) : State :=
  let '(t', progress, again) := tick t in
  let inner :=
    String.append "rgba(160,240,255,"
      (String.append (show (0.35 * (1 - progress))%Q) ")") in
  let s1 := set_bitmap
              (bitmap s ++ [FillBurst cx cy r (r * (0.4 + progress))%Q inner])
              s in
  if again then snd (requestAnimationFrame (CbFrame cx cy r t') s1) else s1.

Definition burstLight (rect : Rect) (s : State) : State :=
  let cx := (left rect + width rect / 2)%Q in
  let cy := (top rect + height rect / 2)%Q in
  let r := (Math_max (width rect) (height rect) * 1.6)%Q in
  snd (requestAnimationFrame (CbFrame cx cy r 0) s).

(** [keyPulse(el)]: the element's own animation is declarative; the script
    state only sees the burst. *)
Definition keyPulse (rect : Rect) (s : State) : State := burstLight rect s.

(** *** Event handlers *)

Definition on_change (chk : bool) (s : State) : State :=
  let s := set_checked chk s in
  if negb chk then
    set_bitmap [] (set_rafId None (cancelAnimationFrame (rafId s) s))
  else if falsy (rafId s) then render s else s.

(** The loop of the randomize button: four draws per entry, the first one
    ([shift]) unused. *)
Fixpoint randomize (pal : list string) (sd : nat) : list string * nat :=
  match pal with
  | [] => ([], sd)
  | _ :: rest =>
      let c :=
        String.append "rgba("
         (String.append
           (show (120 + inject_Z (Math_floor (rnd (sd + 1)%nat * 120)))%Q)
         (String.append ","
         (String.append
           (show (180 + inject_Z (Math_floor (rnd (sd + 2)%nat * 70)))%Q)
         (String.append ",255,"
         (String.append (show (0.6 + rnd (sd + 3)%nat * 0.35)%Q) ")"))))) in
      let '(rest', sd') := randomize rest (sd + 4)%nat in
      (c :: rest', sd')
  end.

Definition on_randomize (s : State) : State :=
  let '(pal, sd) := randomize (palette s) (seed s) in
  set_seed sd (set_palette pal s).

Definition on_visibilitychange (hidden : bool) (s : State) : State :=
  if hidden then set_rafId None (cancelAnimationFrame (rafId s) s)
  else if falsy (rafId s) && checked s && negb (prefersReduced s)
       then render s else s.

(** [start()]; the listeners it registers are [step] below. *)
Definition start (w h : Z) (s : State) : State :=
  let s := resize w h s in
  if negb (prefersReduced s) then render s else s.

(** The script run once, top to bottom, in a [w]-by-[h] viewport. *)
Definition boot (w h : Z) (reduced chk : bool) : State :=
  let s0 :=
    {| W := w; H := h;
       particles := 0%nat;
       PARTICLE_COUNT := Math_round (inject_Z (w * h) / 70000);
       prefersReduced := reduced;
       palette := ["rgba(127,227,255,0.9)"; "rgba(123,216,255,0.85)";
                   "rgba(190,245,255,0.6)"; "rgba(170,230,255,0.5)"]%string;
       rafId := None;
       arrays := {[ 0%nat := [] ]};
       bitmap := [];
       callbacks := [];
       handle := 0;
       checked := chk;
       seed := 0%nat;
       exported := None |} in
  let s1 := start w h s0 in
  set_exported (Some (particles s1)) s1.

(** *** The page after loading *)

Inductive Event :=
| Resize (w h : Z)                (* window resize to w-by-h *)
| MotionToggle (chk : bool)       (* change on #motionToggle *)
| RandomizeClick
| Activate (rect : Rect)          (* pointerdown, Enter or Space on a key *)
| VisibilityChange (hidden : bool)
| AnimationFrame                  (* the browser runs the pending callbacks *)
| DebugInitParticles              (* window._TecladoHielo.initParticles() *)
| DebugBurstLight (rect : Rect).  (* window._TecladoHielo.burstLight(el) *)

Definition invoke (s : State) (e : Z * Callback) : State :=
  match e.2 with
  | CbRender => render s
  | CbFrame cx cy r t => frame cx cy r t s
  end.

(** The pending callbacks are taken off the page, then run in order; what
    they request goes to the next frame. *)
Definition run_frame (s : State) : State :=
  fold_left invoke (callbacks s) (set_callbacks [] (handle s) s).

Definition step (s : State) (e : Event) : State :=
  match e with
  | Resize w h => resize w h s
  | MotionToggle chk => on_change chk s
  | RandomizeClick => on_randomize s
  | Activate rect => keyPulse rect s
  | VisibilityChange hidden => on_visibilitychange hidden s
  | AnimationFrame => run_frame s
  | DebugInitParticles => initParticles s
  | DebugBurstLight rect => burstLight rect s
  end.

Definition run (s : State) (es : list Event) : State := fold_left step es s.

End Script.

(** ** Derived notions used by the statements *)

Section Runs.
Variable host : Host.

(** [n] consecutive calls of [update()] on one particle. *)
Fixpoint updates (n : nat) (W H : Z) (pal : list string) (sd : nat)
    (p : Particle.t) : Particle.t * nat :=
  match n with
  | O => (p, sd)
  | S k =>
      let '(p1, sd1) := Particle.update host W H pal sd p in
      updates k W H pal sd1 p1
  end.

(** The particle after [n] updates if none of them resets it. *)
Fixpoint flight (n : nat) (p : Particle.t) : Particle.t :=
  match n with
  | O => p
  | S k => flight k (Particle.advance host p)
  end.

(** During the first [n] updates [y] never exceeds [H + 20]. *)
Fixpoint in_bounds (H : Z) (n : nat) (p : Particle.t) : bool :=
  match n with
  | O => true
  | S k =>
      let p1 := Particle.advance host p in
      negb (gt (Particle.y p1) (inject_Z H + 20)) && in_bounds H k p1
  end.

(** None of the first [n] updates takes the reset branch. *)
Fixpoint no_reset (H : Z) (n : nat) (p : Particle.t) : bool :=
  match n with
  | O => true
  | S k =>
      let p1 := Particle.advance host p in
      negb (Particle.expired H p1) && no_reset H k p1
  end.

(** The colour string the randomize loop builds from the draws at [sd]. *)
Definition fresh_color (sd : nat) : string :=
  match randomize host [""%string] sd with
  | (c :: _, _) => c
  | _ => ""%string
  end.

End Runs.

(** The [progress] values painted by one burst, given [fuel] animation
    frames: the chain ends when [frame] stops asking for a frame. *)
Fixpoint tick_chain (fuel : nat) (t : Z) : list Q :=
  match fuel with
  | O => []
  | S k =>
      let '(t', progress, again) := tick t in
      progress :: (if again then tick_chain k t' else [])
  end.

(** Handles of the pending requests that will call [render]. *)
Fixpoint render_requests (cbs : list (Z * Callback)) : list Z :=
  match cbs with
  | [] => []
  | (h, CbRender) :: rest => h :: render_requests rest
  | (_, CbFrame _ _ _ _) :: rest => render_requests rest
  end.

(** The loop is RUNNING when it holds a handle. *)
Definition running (s : State) : bool := negb (falsy (rafId s)).

(** *** Invariants of the running page *)

(** The loop's handle and its pending request agree: a request for [render]
    is pending exactly when [rafId] holds its (truthy) handle, and none ever
    is under reduced motion. *)
Definition loop_inv (s : State) : Prop :=
  render_requests (callbacks s)
    = match rafId s with Some h => [h] | None => [] end /\
  (prefersReduced s = true -> rafId s = None) /\
  (forall h, rafId s = Some h -> 0 < h) /\
  0 <= handle s.

(** While the callbacks [cbs] taken off the page are being run: either the
    request for [render] has been served already, or it is still in [cbs]
    and nothing new has been requested yet. *)
Definition frame_inv (cbs : list (Z * Callback)) (s : State) : Prop :=
  (prefersReduced s = true -> rafId s = None) /\
  (forall h, rafId s = Some h -> 0 < h) /\
  0 <= handle s /\
  ((render_requests cbs = [] /\
    render_requests (callbacks s)
      = match rafId s with Some h => [h] | None => [] end) \/
   (exists h, render_requests cbs = [h] /\
              render_requests (callbacks s) = [] /\
              prefersReduced s = false)).

(** The variable [particles] refers to an array of [n] particles, [n] being
    what [initParticles] computes from the constant [count]; an exported
    reference points to an existing array. *)
Definition heap_inv (count : Z) (s : State) : Prop :=
  PARTICLE_COUNT s = count /\
  (exists ps, arrays s !! particles s = Some ps /\
              length ps = Z.to_nat (Z.max 20 count)) /\
  (forall l, exported s = Some l -> is_Some (arrays s !! l)).

(** The exported array is no longer the one the script works on. *)
Definition stale (l : nat) (s : State) : Prop :=
  exported s = Some l /\ l <> particles s /\ is_Some (arrays s !! l).

(** The exported array is stale and holds [v]. *)
Definition frozen (l : nat) (v : option (list Particle.t)) (s : State) : Prop :=
  stale l s /\ arrays s !! l = v.

(** The three ways an operation of the script acts on the arrays: not at
    all, by updating the particles of the current array in place, or by
    making [particles] refer to a newly allocated array. *)
Definition heap_step (s s' : State) : Prop :=
  PARTICLE_COUNT s' = PARTICLE_COUNT s /\ exported s' = exported s /\
  ((particles s' = particles s /\ arrays s' = arrays s) \/
   (exists ps, particles s' = particles s /\
               arrays s' = <[particles s := ps]> (arrays s) /\
               length ps = length (pool s)) \/
   (exists ps, particles s' = fresh (dom (arrays s)) /\
               arrays s' = <[fresh (dom (arrays s)) := ps]> (arrays s) /\
               length ps = Z.to_nat (Z.max 20 (PARTICLE_COUNT s)))).

Definition heap_stable (P : State -> Prop) : Prop :=
  forall s s', heap_step s s' -> P s -> P s'.

(** The age of a particle lies between 0 and its ttl. *)
Definition age_ok (p : Particle.t) : Prop :=
  0 <= Particle.life p /\ (inject_Z (Particle.life p) <= Particle.ttl p)%Q.

(** [k] animation frames in a row. *)
Definition frames (k : nat) : list Event := replicate k AnimationFrame.

(** Two sample hosts. *)
Definition still_host : Host :=
  {| Math_random := fun _ => 0%Q;
     Math_sin := fun _ => 0%Q;
     toString := fun q => pretty (Qfloor q) |}.

Definition sample_host : Host :=
  {| Math_random := fun n => ((Z.of_nat n * 37 + 11) mod 100 # 100)%Q;
     Math_sin := fun q => (q - q * q * q / 6)%Q;
     toString := fun q =>
       String.append (pretty (Qnum q))
         (String.append "/" (pretty (Zpos (Qden q)))) |}.

Definition sample_rect : Rect :=
  {| left := 100; top := 40; width := 60; height := 48 |}.

(** ** Further notions: the particle field *)

(** The palette the script starts with. *)
Definition palette0 : list string :=
  ["rgba(127,227,255,0.9)"; "rgba(123,216,255,0.85)";
   "rgba(190,245,255,0.6)"; "rgba(170,230,255,0.5)"]%string.

(** The ranges [reset()] draws the lasting fields of a particle from. *)
Definition constants_ok (p : Particle.t) : Prop :=
  (0.2 <= Particle.vy p /\ Particle.vy p < 1.4 /\
   1 <= Particle.size p /\ Particle.size p < 5 /\
   80 <= Particle.ttl p /\ Particle.ttl p < 300 /\
   0.08 <= Particle.alpha p /\ Particle.alpha p < 0.98 /\
   -0.03 <= Particle.spin p /\ Particle.spin p < 0.03)%Q.

(** Where [reset()] puts a particle on a [W] by [H] surface: within its
    width, and in the band of half its height above its top edge. *)
Definition spawn_ok (W H : Z) (p : Particle.t) : Prop :=
  (0 <= Particle.x p /\ Particle.x p <= inject_Z W /\
   - (inject_Z H * 0.5) <= Particle.y p /\ Particle.y p <= 0 /\
   -0.3 <= Particle.vx p /\ Particle.vx p < 0.3)%Q /\
  Particle.life p = 0.

(** Vertical extent of a live particle on a surface of height [H]. *)
Definition y_ok (H : Z) (p : Particle.t) : Prop :=
  (- (inject_Z H * 0.5) <= Particle.y p /\
   Particle.y p <= inject_Z H + 20)%Q.

(** The viewport of every resize event satisfies [ok]. *)
Definition event_dims (ok : Z -> Z -> Prop) (e : Event) : Prop :=
  match e with
  | Resize w h => ok w h
  | _ => True
  end.

(** A viewport has sides that are not negative. *)
Definition nonneg (w h : Z) : Prop := 0 <= w /\ 0 <= h.
Definition viewport_ok (e : Event) : Prop := event_dims nonneg e.

(** A property [P] of (width, height, palette, pool) holds of a state whose
    surface satisfies [ok]. *)
Definition field_inv (ok : Z -> Z -> Prop)
    (P : Z -> Z -> list string -> list Particle.t -> Prop) (s : State)
  : Prop :=
  ok (W s) (H s) /\ P (W s) (H s) (palette s) (pool s).

(** ** Further notions: the surface and the requests *)

(** A flake is painted with an opacity within [0.05, 0.95]. *)
Definition paint_ok (pt : Paint) : Prop :=
  match pt with
  | FillFlake _ _ _ _ a _ => (0.05 <= a /\ a <= 0.95)%Q
  | _ => True
  end.

(** The pending requests that will call the closure of a burst. *)
Fixpoint burst_requests (cbs : list (Z * Callback)) : list (Z * Callback) :=
  match cbs with
  | [] => []
  | (_, CbRender) :: rest => burst_requests rest
  | (h, CbFrame cx cy r t) :: rest =>
      (h, CbFrame cx cy r t) :: burst_requests rest
  end.

(** The clock of a pending burst is a multiple of 16, at least [m] and
    below [duration]. *)
Definition clock_ok (m : Z) (e : Z * Callback) : Prop :=
  match e.2 with
  | CbRender => True
  | CbFrame _ _ _ t => m <= t < duration /\ t mod 16 = 0
  end.

(** Handles are positive, not above the last one handed out, and pairwise
    distinct. *)
Definition handles_inv (s : State) : Prop :=
  NoDup (callbacks s).*1 /\
  Forall (fun e : Z * Callback => 0 < e.1 <= handle s) (callbacks s) /\
  0 <= handle s.

(** Events that spawn a burst, and events that run a frame. *)
Definition is_burst (e : Event) : bool :=
  match e with
  | Activate _ | DebugBurstLight _ => true
  | _ => false
  end.

Definition is_frame (e : Event) : bool :=
  match e with
  | AnimationFrame => true
  | _ => false
  end.

Definition count_frames (es : list Event) : nat :=
  length (List.filter is_frame es).

(** What the particle field and the loop consist of, the surface, the
    pending closures and the handle values left aside. *)
Definition view (s : State) :=
  (W s, H s, PARTICLE_COUNT s, prefersReduced s, palette s, arrays s,
   particles s, seed s, checked s, exported s, running s).

(** ** Further notions: colours *)


(** ** Further notions: what a frame leaves on the surface *)

(** The fill one call of the closure of a burst makes, its clock being [t]
    before the call. *)
Definition burst_paint (host : Host) (cx cy r : Q) (t : Z) : Paint :=
  let progress := (tick t).1.2 in
  FillBurst cx cy r (r * (0.4 + progress))%Q
    (String.append "rgba(160,240,255,"
       (String.append (toString host (0.35 * (1 - progress))%Q) ")")).

(** The fills of the burst closures among [cbs], in order. *)
Fixpoint burst_paints (host : Host) (cbs : list (Z * Callback)) : list Paint :=
  match cbs with
  | [] => []
  | (_, CbRender) :: rest => burst_paints host rest
  | (_, CbFrame cx cy r t) :: rest =>
      burst_paint host cx cy r t :: burst_paints host rest
  end.

(** Events that run [initParticles]. *)
Definition is_reinit (e : Event) : bool :=
  match e with
  | Resize _ _ | DebugInitParticles => true
  | _ => false
  end.

(** ** The pointermove listener of [start()] *)

(** The angles, in degrees, the keyboard is tilted by when the pointer is
    at ([clientX], [clientY]) in an [innerWidth] by [innerHeight] viewport:
    first the one about the x axis, then the one about the y axis. *)
Definition tilt (innerWidth innerHeight : Z) (clientX clientY : Q) : Q * Q :=
  let cx := (inject_Z innerWidth / 2)%Q in
  let cy := (inject_Z innerHeight / 2)%Q in
  let dx := ((clientX - cx) / cx)%Q in
  let dy := ((clientY - cy) / cy)%Q in
  ((dy * 6)%Q, (dx * 8)%Q).

(** The listener: the value it assigns to the [transform] style of the
    keyboard, or [None] when it returns without assigning. *)
Definition on_pointermove (host : Host) (s : State)
    (innerWidth innerHeight : Z) (clientX clientY : Q) : option string :=
  if prefersReduced s then None
  else
    let '(ax, ay) := tilt innerWidth innerHeight clientX clientY in
    Some (String.append "translateZ(0) rotateX("
           (String.append (toString host ax)
           (String.append "deg) rotateY("
           (String.append (toString host ay) "deg)")))).

(** * Properties *)

(** ** Comparisons *)

Lemma gt_true (a b : Q) : gt a b = true <-> (b < a)%Q.
Proof.
  unfold gt. destruct (Qle_bool a b) eqn:E; simpl.
  - apply Qle_bool_iff in E. split; [discriminate|].
    intros Hlt. exfalso. apply (Qlt_not_le _ _ Hlt). exact E.
  - split; [intros _|reflexivity].
    apply Qnot_le_lt. intros Hle. apply Qle_bool_iff in Hle. congruence.
Qed.

Lemma gt_false (a b : Q) : gt a b = false <-> (a <= b)%Q.
Proof.
  unfold gt. destruct (Qle_bool a b) eqn:E; simpl.
  - apply Qle_bool_iff in E. split; [intros _; exact E|reflexivity].
  - split; [discriminate|].
    intros Hle. apply Qle_bool_iff in Hle. congruence.
Qed.

Lemma floor_succ_gt (q : Q) : gt (inject_Z (Qfloor q + 1)) q = true.
Proof. apply gt_true. apply Qlt_floor. Qed.

(** ** Particle.update *)

Section ParticleFacts.
Variable host : Host.
Variables (W H : Z) (pal : list string).

Lemma reset_life sd : Particle.life (Particle.reset host W H pal sd).1 = 0.
Proof. reflexivity. Qed.

Lemma reset_ttl_range sd :
  random_ok host ->
  (80 <= Particle.ttl (Particle.reset host W H pal sd).1)%Q /\
  (Particle.ttl (Particle.reset host W H pal sd).1 < 300)%Q.
Proof.
  intros Hr. destruct (Hr (sd + 5)%nat) as [H0 H1]. simpl. split; lra.
Qed.

Lemma update_expired sd p :
  Particle.expired H (Particle.advance host p) = true ->
  Particle.update host W H pal sd p = Particle.reset host W H pal sd.
Proof. intros E. unfold Particle.update. rewrite E. reflexivity. Qed.

Lemma update_alive sd p :
  Particle.expired H (Particle.advance host p) = false ->
  Particle.update host W H pal sd p = (Particle.advance host p, sd).
Proof. intros E. unfold Particle.update. rewrite E. reflexivity. Qed.

Lemma flight_life n : forall p,
  Particle.life (flight host n p) = Particle.life p + Z.of_nat n.
Proof.
  induction n as [|n IH]; intros p; simpl flight.
  - lia.
  - rewrite IH. simpl. lia.
Qed.

Lemma flight_keeps n : forall p,
  Particle.ttl (flight host n p) = Particle.ttl p /\
  Particle.color (flight host n p) = Particle.color p /\
  Particle.alpha (flight host n p) = Particle.alpha p /\
  Particle.spin (flight host n p) = Particle.spin p /\
  Particle.size (flight host n p) = Particle.size p /\
  Particle.vy (flight host n p) = Particle.vy p.
Proof.
  induction n as [|n IH]; intros p; simpl flight.
  - repeat split.
  - destruct (IH (Particle.advance host p)) as (-> & -> & -> & -> & -> & ->).
    repeat split.
Qed.

(** Updates that never take the reset branch are plain flight and draw no
    random number. *)
Lemma updates_no_reset n : forall sd p,
  no_reset host H n p = true ->
  updates host n W H pal sd p = (flight host n p, sd).
Proof.
  induction n as [|n IH]; intros sd p Hn.
  - reflexivity.
  - cbn [no_reset updates flight] in *.
    apply andb_true_iff in Hn as [E Hn]. apply negb_true_iff in E.
    rewrite (update_alive _ _ E). apply IH. exact Hn.
Qed.

(** A particle whose age stays within [ttl] and whose [y] stays within the
    bound is not reset. *)
Lemma in_bounds_no_reset n : forall p,
  in_bounds host H n p = true ->
  (inject_Z (Particle.life p + Z.of_nat n) <= Particle.ttl p)%Q ->
  no_reset host H n p = true.
Proof.
  induction n as [|n IH]; intros p Hb Hl.
  - reflexivity.
  - cbn [in_bounds no_reset] in *.
    apply andb_true_iff in Hb as [Ey Hb].
    apply andb_true_iff. split.
    + apply negb_true_iff. unfold Particle.expired.
      apply negb_true_iff in Ey. rewrite Ey. cbn [orb].
      apply gt_false. eapply Qle_trans; [|exact Hl].
      rewrite <- Zle_Qle. cbn [Particle.advance Particle.life]. lia.
    + apply IH; [exact Hb|]. cbn [Particle.advance Particle.life Particle.ttl].
      replace (Particle.life p + 1 + Z.of_nat n)
        with (Particle.life p + Z.of_nat (S n)) by lia.
      exact Hl.
Qed.

End ParticleFacts.

(** ** The palette *)

Section PaletteFacts.
Variable host : Host.

Lemma randomize_length pal : forall sd,
  length (randomize host pal sd).1 = length pal.
Proof.
  induction pal as [|c pal IH]; intros sd; cbn [randomize].
  - reflexivity.
  - specialize (IH (sd + 4)%nat).
    destruct (randomize host pal (sd + 4)) as [rest sd']. simpl in *.
    now rewrite IH.
Qed.

Lemma randomize_lookup pal : forall sd i,
  (i < length pal)%nat ->
  (randomize host pal sd).1 !! i = Some (fresh_color host (sd + 4 * i)).
Proof.
  induction pal as [|c pal IH]; intros sd i Hi; cbn [randomize length] in *.
  - lia.
  - specialize (IH (sd + 4)%nat).
    destruct (randomize host pal (sd + 4)) as [rest sd'].
    destruct i as [|i]; cbn [fst] in *.
    + replace (sd + 4 * 0)%nat with sd by lia. reflexivity.
    + simpl lookup. rewrite IH by lia. f_equal. f_equal. lia.
Qed.

Lemma floor_index_range (r : Q) (n : nat) :
  (0 <= r)%Q -> (r < 1)%Q -> (0 < n)%nat ->
  0 <= Math_floor (r * inject_Z (Z.of_nat n)) < Z.of_nat n.
Proof.
  intros H0 H1 Hn. unfold Math_floor.
  assert (Hpos : (0 < inject_Z (Z.of_nat n))%Q).
  { change 0%Q with (inject_Z 0). rewrite <- Zlt_Qlt. lia. }
  split.
  - change 0 with (Qfloor 0). apply Qfloor_resp_le.
    apply Qmult_le_0_compat; [exact H0|]. apply Qlt_le_weak, Hpos.
  - rewrite Zlt_Qlt. eapply Qle_lt_trans; [apply Qfloor_le|]. nra.
Qed.

(** With a non-empty palette, [reset()] copies one of its entries. *)
Lemma reset_color_in_palette W H pal sd :
  random_ok host -> pal <> [] ->
  exists c, Particle.color (Particle.reset host W H pal sd).1 = Some c /\
            c ∈ pal.
Proof.
  intros Hr Hne. cbn [Particle.reset fst Particle.color].
  destruct (Hr (sd + 6)%nat) as [H0 H1].
  assert (Hlen : (0 < length pal)%nat) by (destruct pal; [congruence|simpl; lia]).
  pose proof (floor_index_range _ _ H0 H1 Hlen) as [Hlo Hhi].
  unfold index.
  destruct (Z.ltb_spec (Math_floor (Math_random host (sd + 6)
                        * inject_Z (Z.of_nat (length pal)))) 0) as [Hneg|_];
    [lia|].
  destruct (lookup_lt_is_Some_2 pal
              (Z.to_nat (Math_floor (Math_random host (sd + 6)
                         * inject_Z (Z.of_nat (length pal))))))
    as [c Hc]; [lia|].
  exists c. split; [exact Hc|]. eapply list_elem_of_lookup_2, Hc.
Qed.

End PaletteFacts.

(** ** What each operation touches *)

Section ScriptFacts.
Variable host : Host.

Lemma push_particles_length n W H pal : forall acc sd,
  length (push_particles host n W H pal acc sd).1 = (length acc + n)%nat.
Proof.
  induction n as [|n IH]; intros acc sd; cbn [push_particles].
  - simpl. lia.
  - unfold Particle.new, Particle.reset. rewrite IH, length_app. simpl. lia.
Qed.

Lemma update_draw_length W H pal ps : forall sd,
  length (update_draw host W H pal ps sd).1.1 = length ps.
Proof.
  induction ps as [|p ps IH]; intros sd; cbn [update_draw].
  - reflexivity.
  - destruct (Particle.update host W H pal sd p) as [p' sd1].
    specialize (IH sd1).
    destruct (update_draw host W H pal ps sd1) as [[rest paints] sd2].
    simpl in *. now rewrite IH.
Qed.

Lemma initParticles_fields s :
  let s' := initParticles host s in
  W s' = W s /\ H s' = H s /\ PARTICLE_COUNT s' = PARTICLE_COUNT s /\
  prefersReduced s' = prefersReduced s /\ palette s' = palette s /\
  rafId s' = rafId s /\ bitmap s' = bitmap s /\
  callbacks s' = callbacks s /\ handle s' = handle s /\
  checked s' = checked s /\ exported s' = exported s /\
  particles s' = fresh (dom (arrays s)) /\
  arrays s' = <[fresh (dom (arrays s)) :=
                 (push_particles host
                    (Z.to_nat (Z.max 20 (PARTICLE_COUNT s)))
                    (W s) (H s) (palette s) [] (seed s)).1]> (arrays s).
Proof.
  unfold initParticles.
  destruct (push_particles host _ (W s) (H s) (palette s) [] (seed s))
    as [ps sd].
  simpl. repeat split.
Qed.

Lemma resize_fields w h s :
  let s' := resize host w h s in
  W s' = w /\ H s' = h /\ PARTICLE_COUNT s' = PARTICLE_COUNT s /\
  prefersReduced s' = prefersReduced s /\ palette s' = palette s /\
  rafId s' = rafId s /\ bitmap s' = [] /\
  callbacks s' = callbacks s /\ handle s' = handle s /\
  checked s' = checked s /\ exported s' = exported s /\
  particles s' = fresh (dom (arrays s)) /\
  arrays s' = <[fresh (dom (arrays s)) :=
                 (push_particles host
                    (Z.to_nat (Z.max 20 (PARTICLE_COUNT s)))
                    w h (palette s) [] (seed s)).1]> (arrays s).
Proof.
  unfold resize.
  pose proof (initParticles_fields (set_bitmap [] (set_dims w h s))) as F.
  simpl in F. exact F.
Qed.

Lemma render_fields s :
  let s' := render host s in
  W s' = W s /\ H s' = H s /\ PARTICLE_COUNT s' = PARTICLE_COUNT s /\
  prefersReduced s' = prefersReduced s /\ palette s' = palette s /\
  checked s' = checked s /\ exported s' = exported s /\
  particles s' = particles s /\
  arrays s' = <[particles s :=
                 (update_draw host (W s) (H s) (palette s) (pool s)
                    (seed s)).1.1]> (arrays s) /\
  bitmap s' = FillOverlay (W s) (H s)
              :: (update_draw host (W s) (H s) (palette s) (pool s)
                    (seed s)).1.2 /\
  (if prefersReduced s
   then callbacks s' = callbacks s /\ handle s' = handle s /\
        rafId s' = rafId s
   else callbacks s' = callbacks s ++ [(handle s + 1, CbRender)] /\
        handle s' = handle s + 1 /\ rafId s' = Some (handle s + 1)).
Proof.
  unfold render. cbn [W H palette seed set_bitmap].
  change (pool (set_bitmap [FillOverlay (W s) (H s)] s)) with (pool s).
  destruct (update_draw host (W s) (H s) (palette s) (pool s) (seed s))
    as [[ps paints] sd].
  destruct (prefersReduced s) eqn:E; simpl; rewrite E; simpl;
    repeat split; exact E.
Qed.

Lemma frame_fields cx cy r t s :
  let s' := frame host cx cy r t s in
  W s' = W s /\ H s' = H s /\ PARTICLE_COUNT s' = PARTICLE_COUNT s /\
  prefersReduced s' = prefersReduced s /\ palette s' = palette s /\
  checked s' = checked s /\ exported s' = exported s /\
  particles s' = particles s /\ arrays s' = arrays s /\
  rafId s' = rafId s /\ seed s' = seed s /\
  (if t + 16 <? duration
   then callbacks s' = callbacks s ++ [(handle s + 1, CbFrame cx cy r (t + 16))]
        /\ handle s' = handle s + 1
   else callbacks s' = callbacks s /\ handle s' = handle s).
Proof.
  unfold frame, tick. destruct (t + 16 <? duration); simpl; repeat split.
Qed.

Lemma burstLight_fields rect s :
  let s' := burstLight rect s in
  W s' = W s /\ H s' = H s /\ PARTICLE_COUNT s' = PARTICLE_COUNT s /\
  prefersReduced s' = prefersReduced s /\ palette s' = palette s /\
  checked s' = checked s /\ exported s' = exported s /\
  particles s' = particles s /\ arrays s' = arrays s /\
  rafId s' = rafId s /\ seed s' = seed s /\ bitmap s' = bitmap s /\
  handle s' = handle s + 1 /\
  exists cx cy r, callbacks s' = callbacks s ++ [(handle s + 1, CbFrame cx cy r 0)].
Proof.
  unfold burstLight. simpl. repeat split. eauto.
Qed.

Lemma on_randomize_fields s :
  let s' := on_randomize host s in
  W s' = W s /\ H s' = H s /\ PARTICLE_COUNT s' = PARTICLE_COUNT s /\
  prefersReduced s' = prefersReduced s /\
  checked s' = checked s /\ exported s' = exported s /\
  particles s' = particles s /\ arrays s' = arrays s /\
  rafId s' = rafId s /\ bitmap s' = bitmap s /\
  callbacks s' = callbacks s /\ handle s' = handle s /\
  palette s' = (randomize host (palette s) (seed s)).1.
Proof.
  unfold on_randomize.
  destruct (randomize host (palette s) (seed s)) as [pal sd].
  simpl. repeat split.
Qed.

End ScriptFacts.

(** ** The render loop's single request *)

Lemma render_requests_app (a b : list (Z * Callback)) :
  render_requests (a ++ b) = render_requests a ++ render_requests b.
Proof.
  induction a as [|[h [|cx cy r t]] a IH]; simpl; [reflexivity| |exact IH].
  now rewrite IH.
Qed.

Lemma render_requests_cancel (h : Z) (cbs : list (Z * Callback)) :
  render_requests (filter (fun e : Z * Callback => e.1 <> h) cbs)
  = filter (fun x : Z => x <> h) (render_requests cbs).
Proof.
  induction cbs as [|[h' cb] cbs IH]; [reflexivity|].
  rewrite filter_cons. simpl fst.
  destruct cb as [|cx cy r t]; simpl render_requests.
  - rewrite filter_cons. destruct (decide (h' <> h)); simpl; now rewrite IH.
  - destruct (decide (h' <> h)); simpl; exact IH.
Qed.

Lemma loop_inv_ext (s s' : State) :
  callbacks s' = callbacks s -> rafId s' = rafId s ->
  prefersReduced s' = prefersReduced s -> handle s' = handle s ->
  loop_inv s -> loop_inv s'.
Proof. unfold loop_inv. intros -> -> -> ->. exact id. Qed.

Lemma loop_inv_falsy (s : State) :
  loop_inv s -> falsy (rafId s) = true -> rafId s = None.
Proof.
  intros (_ & _ & Hpos & _) Hf. destruct (rafId s) as [h|]; [|reflexivity].
  specialize (Hpos h eq_refl). simpl in Hf. lia.
Qed.

Section LoopFacts.
Variable host : Host.

Lemma render_loop_inv s :
  loop_inv s -> rafId s = None -> loop_inv (render host s).
Proof.
  intros (Hrr & Hred & Hpos & Hh) Hnone.
  pose proof (render_fields host s) as F. cbv zeta in F.
  destruct F as (_ & _ & _ & Fred & _ & _ & _ & _ & _ & _ & F).
  unfold loop_inv. rewrite Fred.
  destruct (prefersReduced s).
  - destruct F as (-> & -> & ->). auto.
  - destruct F as (-> & -> & ->). rewrite render_requests_app, Hrr, Hnone.
    simpl. repeat split; [discriminate|intros h [= <-]; lia|lia].
Qed.

Lemma stop_loop_inv s :
  loop_inv s ->
  loop_inv (set_rafId None (cancelAnimationFrame (rafId s) s)) /\
  render_requests
    (callbacks (set_rafId None (cancelAnimationFrame (rafId s) s))) = [].
Proof.
  intros (Hrr & Hred & Hpos & Hh).
  assert (E : render_requests
    (callbacks (set_rafId None (cancelAnimationFrame (rafId s) s))) = []).
  { simpl. rewrite render_requests_cancel, Hrr.
    destruct (rafId s) as [h|]; [|reflexivity].
    rewrite filter_cons. destruct (decide (h <> h)); [congruence|reflexivity]. }
  split; [|exact E].
  unfold loop_inv. rewrite E. simpl. repeat split; [discriminate|exact Hh].
Qed.

Lemma on_change_loop_inv chk s : loop_inv s -> loop_inv (on_change host chk s).
Proof.
  intros Hi. unfold on_change.
  assert (Hc : loop_inv (set_checked chk s))
    by (eapply loop_inv_ext; [..|exact Hi]; reflexivity).
  destruct chk; cbn [negb].
  - destruct (falsy (rafId (set_checked true s))) eqn:Ef; [|exact Hc].
    apply render_loop_inv; [exact Hc|]. now apply loop_inv_falsy.
  - eapply loop_inv_ext; [..|exact (proj1 (stop_loop_inv _ Hc))]; reflexivity.
Qed.

Lemma on_visibilitychange_loop_inv hidden s :
  loop_inv s -> loop_inv (on_visibilitychange host hidden s).
Proof.
  intros Hi. unfold on_visibilitychange. destruct hidden.
  - exact (proj1 (stop_loop_inv _ Hi)).
  - destruct (falsy (rafId s)) eqn:Ef; cbn [andb]; [|exact Hi].
    destruct (checked s && negb (prefersReduced s)); [|exact Hi].
    apply render_loop_inv; [exact Hi|]. now apply loop_inv_falsy.
Qed.

Lemma initParticles_loop_inv s : loop_inv s -> loop_inv (initParticles host s).
Proof.
  pose proof (initParticles_fields host s) as F. cbv zeta in F.
  destruct F as (_ & _ & _ & F1 & _ & F2 & _ & F3 & F4 & _).
  now apply loop_inv_ext.
Qed.

Lemma resize_loop_inv w h s : loop_inv s -> loop_inv (resize host w h s).
Proof.
  pose proof (resize_fields host w h s) as F. cbv zeta in F.
  destruct F as (_ & _ & _ & F1 & _ & F2 & _ & F3 & F4 & _).
  now apply loop_inv_ext.
Qed.

Lemma on_randomize_loop_inv s : loop_inv s -> loop_inv (on_randomize host s).
Proof.
  pose proof (on_randomize_fields host s) as F. cbv zeta in F.
  destruct F as (_ & _ & _ & F1 & _ & _ & _ & _ & F2 & _ & F3 & F4 & _).
  now apply loop_inv_ext.
Qed.

Lemma burstLight_loop_inv rect s : loop_inv s -> loop_inv (burstLight rect s).
Proof.
  intros (Hrr & Hred & Hpos & Hh).
  pose proof (burstLight_fields rect s) as F. cbv zeta in F.
  destruct F as (_ & _ & _ & F1 & _ & _ & _ & _ & _ & F2 & _ & _ & F3 & F).
  destruct F as (cx & cy & r & F4).
  unfold loop_inv. rewrite F1, F2, F3, F4, render_requests_app. simpl.
  rewrite app_nil_r. repeat split; [exact Hrr|exact Hred|exact Hpos|lia].
Qed.

Lemma invoke_frame_inv e cbs s :
  frame_inv (e :: cbs) s -> frame_inv cbs (invoke host s e).
Proof.
  destruct e as [h0 [|cx cy r t]]; unfold invoke; simpl snd;
    intros (Hred & Hpos & Hh & Hcase).
  - (* render *)
    destruct Hcase as [[Hnil _]|(h & Hone & Hnone & Hnr)]; [discriminate|].
    simpl in Hone. injection Hone as _ Hrest.
    pose proof (render_fields host s) as F. cbv zeta in F.
    destruct F as (_ & _ & _ & Fred & _ & _ & _ & _ & _ & _ & F).
    rewrite Hnr in F. destruct F as (Fc & Fh & Fr).
    unfold frame_inv. rewrite Fred, Fc, Fh, Fr, render_requests_app, Hnone.
    simpl. split; [congruence|]. split; [intros h1 [= <-]; lia|].
    split; [lia|]. left. split; [exact Hrest|reflexivity].
  - (* frame of a burst *)
    pose proof (frame_fields host cx cy r t s) as F. cbv zeta in F.
    destruct F as (_ & _ & _ & Fred & _ & _ & _ & _ & _ & Fr & _ & F).
    assert (Hc : render_requests (callbacks (frame host cx cy r t s))
                 = render_requests (callbacks s) /\
                 0 <= handle (frame host cx cy r t s)).
    { destruct (t + 16 <? duration); destruct F as (-> & ->).
      - rewrite render_requests_app. simpl. rewrite app_nil_r. split; [auto|lia].
      - auto. }
    destruct Hc as (Hc & Hh').
    unfold frame_inv. rewrite Fred, Fr, Hc. simpl in Hcase. auto.
Qed.

Lemma fold_frame_inv cbs : forall s,
  frame_inv cbs s -> loop_inv (fold_left (invoke host) cbs s).
Proof.
  induction cbs as [|e cbs IH]; intros s Hf; simpl.
  - destruct Hf as (Hred & Hpos & Hh & [[_ Hrr]|(h & Habs & _)]);
      [|discriminate].
    unfold loop_inv. auto.
  - apply IH. now apply invoke_frame_inv.
Qed.

Lemma run_frame_loop_inv s : loop_inv s -> loop_inv (run_frame host s).
Proof.
  intros (Hrr & Hred & Hpos & Hh). unfold run_frame. apply fold_frame_inv.
  unfold frame_inv. simpl. repeat split; auto.
  destruct (rafId s) as [h|] eqn:Er.
  - right. exists h. repeat split; [exact Hrr|].
    destruct (prefersReduced s); [|reflexivity].
    specialize (Hred eq_refl). discriminate.
  - left. auto.
Qed.

Lemma step_loop_inv s e : loop_inv s -> loop_inv (step host s e).
Proof.
  destruct e; simpl.
  - apply resize_loop_inv.
  - apply on_change_loop_inv.
  - apply on_randomize_loop_inv.
  - apply burstLight_loop_inv.
  - apply on_visibilitychange_loop_inv.
  - apply run_frame_loop_inv.
  - apply initParticles_loop_inv.
  - apply burstLight_loop_inv.
Qed.

Lemma run_loop_inv es : forall s, loop_inv s -> loop_inv (run host s es).
Proof.
  induction es as [|e es IH]; intros s Hi; simpl; [exact Hi|].
  apply IH. now apply step_loop_inv.
Qed.

Lemma boot_loop_inv w h reduced chk : loop_inv (boot host w h reduced chk).
Proof.
  unfold boot, start.
  set (s0 := mkState _ _ _ _ _ _ _ _ _ _ _ _ _ _).
  assert (H0 : loop_inv s0).
  { unfold loop_inv, s0. simpl. repeat split; [discriminate|lia]. }
  assert (H1 : loop_inv (resize host w h s0)) by now apply resize_loop_inv.
  eapply loop_inv_ext with
    (s := if negb (prefersReduced (resize host w h s0))
          then render host (resize host w h s0) else resize host w h s0);
    try reflexivity.
  destruct (negb (prefersReduced (resize host w h s0))); [|exact H1].
  apply render_loop_inv; [exact H1|].
  pose proof (resize_fields host w h s0) as F. cbv zeta in F.
  destruct F as (_ & _ & _ & _ & _ & F & _). rewrite F. reflexivity.
Qed.

Lemma run_prefersReduced es : forall s,
  prefersReduced (run host s es) = prefersReduced s.
Proof.
  induction es as [|e es IH]; intros s; simpl; [reflexivity|].
  rewrite IH. clear IH.
  assert (Hrender : forall s1, prefersReduced (render host s1) = prefersReduced s1).
  { intros s1. pose proof (render_fields host s1) as F. cbv zeta in F. tauto. }
  destruct e; simpl.
  - pose proof (resize_fields host w h s) as F. cbv zeta in F. tauto.
  - unfold on_change. destruct chk; cbn [negb]; [|reflexivity].
    destruct (falsy _); [rewrite Hrender|]; reflexivity.
  - pose proof (on_randomize_fields host s) as F. cbv zeta in F. tauto.
  - reflexivity.
  - unfold on_visibilitychange. destruct hidden; [reflexivity|].
    destruct (_ && _); [apply Hrender|reflexivity].
  - unfold run_frame.
    change (prefersReduced s)
      with (prefersReduced (set_callbacks [] (handle s) s)).
    generalize (set_callbacks [] (handle s) s).
    induction (callbacks s) as [|[h0 cb] cbs IHc]; intros s1; simpl;
      [reflexivity|].
    rewrite IHc. unfold invoke. destruct cb as [|cx cy r t]; simpl snd.
    + apply Hrender.
    + pose proof (frame_fields host cx cy r t s1) as F. cbv zeta in F. tauto.
  - pose proof (initParticles_fields host s) as F. cbv zeta in F. tauto.
  - reflexivity.
Qed.

End LoopFacts.

(** ** The arrays *)

Lemma heap_step_same (s s' : State) :
  PARTICLE_COUNT s' = PARTICLE_COUNT s -> exported s' = exported s ->
  particles s' = particles s -> arrays s' = arrays s -> heap_step s s'.
Proof. unfold heap_step. auto. Qed.

Lemma heap_inv_stable (count : Z) : heap_stable (heap_inv count).
Proof.
  intros s s' (Hc & He & Hcase) (Hpc & (ps & Hps & Hlen) & Hexp).
  unfold heap_inv. rewrite Hc, He. split; [exact Hpc|].
  destruct Hcase as [(-> & ->)|[(ps' & -> & -> & Hl)|(ps' & -> & -> & Hl)]].
  - eauto.
  - split.
    + exists ps'. rewrite lookup_insert_eq. split; [reflexivity|].
      rewrite Hl. unfold pool. rewrite Hps. exact Hlen.
    + intros l Hl'. apply lookup_insert_is_Some'. right. auto.
  - split.
    + exists ps'. rewrite lookup_insert_eq. split; [reflexivity|].
      rewrite Hl, Hpc. reflexivity.
    + intros l Hl'. apply lookup_insert_is_Some'. right. auto.
Qed.

Lemma frozen_stable (l : nat) (v : option (list Particle.t)) :
  heap_stable (frozen l v).
Proof.
  intros s s' (Hc & He & Hcase) ((Hexp & Hne & Hsome) & Hv).
  unfold frozen, stale. rewrite He.
  destruct Hcase as [(-> & ->)|[(ps' & -> & -> & Hl)|(ps' & -> & -> & Hl)]].
  - auto.
  - rewrite lookup_insert_ne by congruence. auto.
  - assert (Hfresh : fresh (dom (arrays s)) <> l).
    { intros <-. apply elem_of_dom in Hsome. exact (is_fresh _ Hsome). }
    rewrite lookup_insert_ne by exact Hfresh. auto.
Qed.

Section HeapFacts.
Variable host : Host.
Variable P : State -> Prop.
Hypothesis P_stable : heap_stable P.

Lemma initParticles_heap_step s : heap_step s (initParticles host s).
Proof.
  pose proof (initParticles_fields host s) as F. cbv zeta in F.
  destruct F as (_ & _ & Fc & _ & _ & _ & _ & _ & _ & _ & Fe & Fp & Fa).
  split; [exact Fc|]. split; [exact Fe|]. right. right.
  eexists. split; [exact Fp|]. split; [exact Fa|].
  now rewrite push_particles_length.
Qed.

Lemma resize_heap_step w h s : heap_step s (resize host w h s).
Proof.
  pose proof (resize_fields host w h s) as F. cbv zeta in F.
  destruct F as (_ & _ & Fc & _ & _ & _ & _ & _ & _ & _ & Fe & Fp & Fa).
  split; [exact Fc|]. split; [exact Fe|]. right. right.
  eexists. split; [exact Fp|]. split; [exact Fa|].
  now rewrite push_particles_length.
Qed.

Lemma render_heap_step s : heap_step s (render host s).
Proof.
  pose proof (render_fields host s) as F. cbv zeta in F.
  destruct F as (_ & _ & Fc & _ & _ & _ & Fe & Fp & Fa & _).
  split; [exact Fc|]. split; [exact Fe|]. right. left.
  eexists. split; [exact Fp|]. split; [exact Fa|].
  apply update_draw_length.
Qed.

Lemma frame_heap_step cx cy r t s : heap_step s (frame host cx cy r t s).
Proof.
  pose proof (frame_fields host cx cy r t s) as F. cbv zeta in F.
  apply heap_step_same; tauto.
Qed.

Lemma on_randomize_heap_step s : heap_step s (on_randomize host s).
Proof.
  pose proof (on_randomize_fields host s) as F. cbv zeta in F.
  apply heap_step_same; tauto.
Qed.

Lemma render_stable s : P s -> P (render host s).
Proof. apply P_stable, render_heap_step. Qed.

Lemma same_stable s s' :
  PARTICLE_COUNT s' = PARTICLE_COUNT s -> exported s' = exported s ->
  particles s' = particles s -> arrays s' = arrays s -> P s -> P s'.
Proof. intros. eapply P_stable; [apply heap_step_same|]; eauto. Qed.

Lemma run_frame_stable s : P s -> P (run_frame host s).
Proof.
  intros Hp. unfold run_frame.
  assert (H1 : P (set_callbacks [] (handle s) s))
    by (eapply same_stable; [..|exact Hp]; reflexivity).
  revert H1. generalize (set_callbacks [] (handle s) s).
  induction (callbacks s) as [|[h0 cb] cbs IH]; intros s1 H1; simpl;
    [exact H1|].
  apply IH. unfold invoke. destruct cb as [|cx cy r t]; simpl snd.
  - now apply render_stable.
  - eapply P_stable; [apply frame_heap_step|exact H1].
Qed.

Lemma step_stable s e : P s -> P (step host s e).
Proof.
  intros Hp. destruct e; simpl.
  - eapply P_stable; [apply resize_heap_step|exact Hp].
  - unfold on_change.
    assert (Hc : P (set_checked chk s))
      by (eapply same_stable; [..|exact Hp]; reflexivity).
    destruct chk; cbn [negb].
    + destruct (falsy _); [now apply render_stable|exact Hc].
    + eapply same_stable; [..|exact Hc]; reflexivity.
  - eapply P_stable; [apply on_randomize_heap_step|exact Hp].
  - eapply same_stable; [..|exact Hp]; reflexivity.
  - unfold on_visibilitychange. destruct hidden.
    + eapply same_stable; [..|exact Hp]; reflexivity.
    + destruct (_ && _); [now apply render_stable|exact Hp].
  - now apply run_frame_stable.
  - eapply P_stable; [apply initParticles_heap_step|exact Hp].
  - eapply same_stable; [..|exact Hp]; reflexivity.
Qed.

Lemma run_stable es : forall s, P s -> P (run host s es).
Proof.
  induction es as [|e es IH]; intros s Hp; simpl; [exact Hp|].
  apply IH. now apply step_stable.
Qed.

End HeapFacts.

Section BootFacts.
Variable host : Host.

Lemma boot_heap_inv w h reduced chk :
  heap_inv (Math_round (inject_Z (w * h) / 70000))
           (boot host w h reduced chk) /\
  exported (boot host w h reduced chk)
  = Some (particles (boot host w h reduced chk)).
Proof.
  unfold boot, start.
  set (s0 := mkState _ _ _ _ _ _ _ _ _ _ _ _ _ _).
  set (count := Math_round (inject_Z (w * h) / 70000)).
  assert (H1 : heap_inv count (resize host w h s0)).
  { pose proof (resize_fields host w h s0) as F. cbv zeta in F.
    destruct F as (_ & _ & Fc & _ & _ & _ & _ & _ & _ & _ & Fe & Fp & Fa).
    unfold heap_inv. rewrite Fc, Fe, Fp, Fa. split; [reflexivity|].
    split; [|discriminate].
    eexists. rewrite lookup_insert_eq. split; [reflexivity|].
    now rewrite push_particles_length. }
  set (s1 := if negb (prefersReduced (resize host w h s0))
             then render host (resize host w h s0) else resize host w h s0).
  assert (H2 : heap_inv count s1).
  { unfold s1. destruct (negb _); [|exact H1].
    apply (render_stable host _ (heap_inv_stable count)), H1. }
  split; [|reflexivity].
  destruct H2 as (Hc & (ps & Hps & Hlen) & _).
  unfold heap_inv. simpl. split; [exact Hc|]. split; [eauto|].
  intros l [= <-]. eauto.
Qed.

End BootFacts.

(** ** The contents of the pool *)

Lemma pool_same (s s' : State) :
  particles s' = particles s -> arrays s' = arrays s -> pool s' = pool s.
Proof. unfold pool. now intros -> ->. Qed.

Section PoolFacts.
Variable host : Host.
Variable Good : list Particle.t -> Prop.
Hypothesis Good_update : forall W H pal ps sd,
  Good ps -> Good (update_draw host W H pal ps sd).1.1.
Hypothesis Good_init : forall n W H pal sd,
  Good (push_particles host n W H pal [] sd).1.

Lemma initParticles_pool s : Good (pool (initParticles host s)).
Proof.
  pose proof (initParticles_fields host s) as F. cbv zeta in F.
  destruct F as (_ & _ & _ & _ & _ & _ & _ & _ & _ & _ & _ & Fp & Fa).
  unfold pool. rewrite Fp, Fa, lookup_insert_eq. apply Good_init.
Qed.

Lemma resize_pool w h s : Good (pool (resize host w h s)).
Proof. unfold resize. apply initParticles_pool. Qed.

Lemma render_pool s : Good (pool s) -> Good (pool (render host s)).
Proof.
  intros Hg. pose proof (render_fields host s) as F. cbv zeta in F.
  destruct F as (_ & _ & _ & _ & _ & _ & _ & Fp & Fa & _).
  unfold pool at 1. rewrite Fp, Fa, lookup_insert_eq. now apply Good_update.
Qed.

Lemma run_frame_pool s : Good (pool s) -> Good (pool (run_frame host s)).
Proof.
  intros Hg. unfold run_frame.
  change (pool s) with (pool (set_callbacks [] (handle s) s)) in Hg.
  revert Hg. generalize (set_callbacks [] (handle s) s).
  induction (callbacks s) as [|[h0 cb] cbs IH]; intros s1 H1; simpl;
    [exact H1|].
  apply IH. unfold invoke. destruct cb as [|cx cy r t]; simpl snd.
  - now apply render_pool.
  - pose proof (frame_fields host cx cy r t s1) as F. cbv zeta in F.
    rewrite (pool_same s1); [exact H1|tauto..].
Qed.

Lemma step_pool s e : Good (pool s) -> Good (pool (step host s e)).
Proof.
  intros Hg. destruct e; simpl.
  - apply resize_pool.
  - unfold on_change. destruct chk; cbn [negb]; [|exact Hg].
    destruct (falsy _); [|exact Hg]. apply render_pool. exact Hg.
  - pose proof (on_randomize_fields host s) as F. cbv zeta in F.
    rewrite (pool_same s); [exact Hg|tauto..].
  - exact Hg.
  - unfold on_visibilitychange. destruct hidden; [exact Hg|].
    destruct (_ && _); [|exact Hg]. now apply render_pool.
  - now apply run_frame_pool.
  - apply initParticles_pool.
  - exact Hg.
Qed.

Lemma run_pool es : forall s, Good (pool s) -> Good (pool (run host s es)).
Proof.
  induction es as [|e es IH]; intros s Hg; simpl; [exact Hg|].
  apply IH. now apply step_pool.
Qed.

Lemma boot_pool w h reduced chk : Good (pool (boot host w h reduced chk)).
Proof.
  unfold boot, start.
  set (s0 := mkState _ _ _ _ _ _ _ _ _ _ _ _ _ _).
  change (pool (set_exported ?e ?s)) with (pool s).
  destruct (negb _); [apply render_pool|]; apply resize_pool.
Qed.

End PoolFacts.

Section AgeFacts.
Variable host : Host.
Hypothesis host_ok : random_ok host.

Lemma update_age_ok W H pal sd p :
  0 <= Particle.life p -> age_ok (Particle.update host W H pal sd p).1.
Proof.
  intros Hl. unfold Particle.update, age_ok.
  destruct (Particle.expired H (Particle.advance host p)) eqn:E.
  - destruct (reset_ttl_range host W H pal sd host_ok) as [Hlo _].
    rewrite reset_life. split; [lia|].
    change (inject_Z 0) with 0%Q. lra.
  - cbn [fst]. split; [simpl; lia|].
    unfold Particle.expired in E. apply orb_false_iff in E as [_ E].
    apply gt_false in E. exact E.
Qed.

Lemma update_draw_age_ok W H pal ps : forall sd,
  Forall age_ok ps -> Forall age_ok (update_draw host W H pal ps sd).1.1.
Proof.
  induction ps as [|p ps IH]; intros sd Hf; cbn [update_draw].
  - constructor.
  - inversion Hf as [|p0 ps0 Hp Hps]; subst.
    pose proof (update_age_ok W H pal sd p (proj1 Hp)) as Hu.
    destruct (Particle.update host W H pal sd p) as [p' sd1].
    specialize (IH sd1 Hps).
    destruct (update_draw host W H pal ps sd1) as [[rest paints] sd2].
    simpl in *. constructor; assumption.
Qed.

Lemma push_particles_age_ok n W H pal : forall acc sd,
  Forall age_ok acc -> Forall age_ok (push_particles host n W H pal acc sd).1.
Proof.
  induction n as [|n IH]; intros acc sd Hf; cbn [push_particles].
  - exact Hf.
  - unfold Particle.new.
    pose proof (reset_ttl_range host W H pal sd host_ok) as [Hlo _].
    pose proof (reset_life host W H pal sd) as Hl0.
    destruct (Particle.reset host W H pal sd) as [p sd'].
    cbn [fst] in *. apply IH. apply Forall_app. split; [exact Hf|].
    constructor; [|constructor].
    unfold age_ok. rewrite Hl0. split; [lia|].
    change (inject_Z 0) with 0%Q. lra.
Qed.

End AgeFacts.

(** ** The tick chain of a burst *)

Lemma progress_lt (a b : Z) :
  (inject_Z a / inject_Z duration < inject_Z b / inject_Z duration)%Q <-> a < b.
Proof.
  unfold Qlt, Qdiv, Qmult, Qinv, inject_Z, duration. simpl. lia.
Qed.

Lemma progress_range (a : Z) :
  0 < a < duration ->
  (0 < inject_Z a / inject_Z duration)%Q /\
  (inject_Z a / inject_Z duration < 1)%Q.
Proof.
  unfold Qlt, Qdiv, Qmult, Qinv, inject_Z, duration. simpl. lia.
Qed.

Lemma tick_chain_lookup fuel : forall t k p,
  tick_chain fuel t !! k = Some p ->
  p = (inject_Z (t + 16 * (Z.of_nat k + 1)) / inject_Z duration)%Q /\
  ((0 < k)%nat -> t + 16 * Z.of_nat k < duration).
Proof.
  induction fuel as [|fuel IH]; intros t k p Hk; cbn [tick_chain tick] in Hk.
  - discriminate.
  - destruct k as [|k]; simpl in Hk.
    + injection Hk as <-. split; [|lia].
      replace (t + 16 * (Z.of_nat 0 + 1)) with (t + 16) by lia. reflexivity.
    + destruct (Z.ltb_spec (t + 16) duration) as [Hlt|Hge]; [|discriminate].
      destruct (IH _ _ _ Hk) as [-> Hk'].
      split; [f_equal; f_equal; lia|]. intros _.
      destruct k as [|k]; [simpl; lia|].
      specialize (Hk' ltac:(lia)). lia.
Qed.

(** Once a chain has ended, more frames add nothing to it. *)
Lemma tick_chain_ended fuel : forall t extra,
  (length (tick_chain fuel t) < fuel)%nat ->
  tick_chain (fuel + extra) t = tick_chain fuel t.
Proof.
  induction fuel as [|fuel IH]; intros t extra Hl; [simpl in Hl; lia|].
  cbn [tick_chain tick Nat.add] in *.
  destruct (t + 16 <? duration); [|reflexivity].
  f_equal. apply IH. simpl in Hl. lia.
Qed.

Lemma tick_chain_27 fuel :
  (27 <= fuel)%nat -> tick_chain fuel 0 = tick_chain 27 0.
Proof.
  intros Hf. destruct (Nat.eq_dec fuel 27%nat) as [->|Hne]; [reflexivity|].
  replace fuel with (28 + (fuel - 28))%nat by lia.
  rewrite (tick_chain_ended 28 0 (fuel - 28)).
  - vm_compute. reflexivity.
  - vm_compute. lia.
Qed.

(** *** The chain on the page *)

Section BurstFacts.
Variable host : Host.

Lemma frames_quiet k : forall s,
  callbacks s = [] -> callbacks (run host s (frames k)) = [].
Proof.
  induction k as [|k IH]; intros s Hs; [exact Hs|].
  cbn [frames replicate run fold_left step]. apply IH.
  unfold run_frame. rewrite Hs. reflexivity.
Qed.

Lemma run_frame_single s h cx cy r t :
  callbacks s = [(h, CbFrame cx cy r t)] ->
  callbacks (run_frame host s)
  = if t + 16 <? duration
    then [(handle s + 1, CbFrame cx cy r (t + 16))] else [].
Proof.
  intros Hs. unfold run_frame. rewrite Hs. cbn [fold_left invoke snd].
  pose proof (frame_fields host cx cy r t (set_callbacks [] (handle s) s)) as F.
  cbv zeta in F.
  destruct F as (_ & _ & _ & _ & _ & _ & _ & _ & _ & _ & _ & F).
  destruct (t + 16 <? duration); destruct F as [-> _]; reflexivity.
Qed.

(** A lone burst: after [k] frames its closure is pending with clock
    [t + 16k] as long as that is below [duration], and nothing is pending
    afterwards. *)
Lemma burst_chain cx cy r k : forall s h t,
  callbacks s = [(h, CbFrame cx cy r t)] -> t < duration ->
  (callbacks (run host s (frames k))).*2
  = if t + 16 * Z.of_nat k <? duration
    then [CbFrame cx cy r (t + 16 * Z.of_nat k)] else [].
Proof.
  induction k as [|k IH]; intros s h t Hs Ht.
  - cbn [frames replicate run fold_left]. rewrite Hs.
    replace (t + 16 * Z.of_nat 0) with t by lia.
    destruct (Z.ltb_spec t duration); [reflexivity|lia].
  - cbn [frames replicate run fold_left step].
    pose proof (run_frame_single s h cx cy r t Hs) as Hc.
    destruct (Z.ltb_spec (t + 16) duration) as [Hlt|Hge].
    + change (fold_left (step host) (replicate k AnimationFrame))
        with (fun s => run host s (frames k)). cbv beta.
      rewrite (IH _ _ _ Hc Hlt).
      replace (t + 16 + 16 * Z.of_nat k) with (t + 16 * Z.of_nat (S k)) by lia.
      reflexivity.
    + change (fold_left (step host) (replicate k AnimationFrame))
        with (fun s => run host s (frames k)). cbv beta.
      rewrite (frames_quiet k _ Hc).
      destruct (Z.ltb_spec (t + 16 * Z.of_nat (S k)) duration); [lia|].
      reflexivity.
Qed.

End BurstFacts.

(** ** Boot *)

Section BootConstants.
Variable host : Host.

Lemma boot_prefersReduced w h reduced chk :
  prefersReduced (boot host w h reduced chk) = reduced.
Proof.
  unfold boot, start.
  set (s0 := mkState _ _ _ _ _ _ _ _ _ _ _ _ _ _).
  pose proof (resize_fields host w h s0) as F. cbv zeta in F.
  destruct F as (_ & _ & _ & F & _).
  pose proof (render_fields host (resize host w h s0)) as G. cbv zeta in G.
  destruct G as (_ & _ & _ & G & _).
  cbn [set_exported prefersReduced].
  destruct (negb (prefersReduced (resize host w h s0)));
    [rewrite G|]; rewrite F; reflexivity.
Qed.

Lemma run_app s es1 es2 :
  run host s (es1 ++ es2) = run host (run host s es1) es2.
Proof. unfold run. apply fold_left_app. Qed.

Lemma exported_stable (e : option nat) : heap_stable (fun s => exported s = e).
Proof. intros s s' (_ & -> & _) Hs. exact Hs. Qed.

End BootConstants.

(** * The particle pool *)

(** C1 (as amended): whatever the viewport at startup ([w0] by [h0]) and
    whatever happens afterwards (resizes to any size, re-initializations
    through the debug object, frames), the pool holds exactly
    max(20, round(w0*h0/70000)) particles: [PARTICLE_COUNT] is a constant
    computed once, from the startup dimensions. *)
Theorem pool_size_fixed_at_startup (host : Host) (w0 h0 : Z)
    (reduced chk : bool) (es : list Event) :
  length (pool (run host (boot host w0 h0 reduced chk) es))
  = Z.to_nat (Z.max 20 (Math_round (inject_Z (w0 * h0) / 70000))).
Proof.
  pose proof (boot_heap_inv host w0 h0 reduced chk) as [Hb _].
  pose proof (run_stable host _ (heap_inv_stable _) es _ Hb) as Hr.
  destruct Hr as (_ & (ps & Hps & Hlen) & _).
  unfold pool. rewrite Hps. exact Hlen.
Qed.

(** C1, counterexample: started at 700x700 and resized to 3000x3000, the
    pool has 20 particles where the claim's formula gives 129. *)
Lemma pool_size_ignores_resize :
  length (pool (run still_host (boot still_host 700 700 false true)
                    [Resize 3000 3000])) = 20%nat /\
  Z.to_nat (Z.max 20 (Math_round (inject_Z (3000 * 3000) / 70000))) = 129%nat.
Proof. split; vm_compute; reflexivity. Qed.

(** C9: the array handed to [window._TecladoHielo] is the pool just after
    startup, but once a resize has happened it is another array than the one
    [particles] refers to, and nothing that happens later changes its
    contents: the exported collection is no longer the pool that [render]
    updates and draws. *)
Theorem exported_pool_goes_stale (host : Host) (w0 h0 : Z)
    (reduced chk : bool) (es1 : list Event) (w h : Z) (es2 : list Event) :
  let s0 := boot host w0 h0 reduced chk in
  let s1 := run host s0 (es1 ++ [Resize w h]) in
  let s2 := run host s1 es2 in
  exported s0 = Some (particles s0) /\
  exists l, exported s2 = Some l /\ l <> particles s2 /\
            arrays s2 !! l = arrays s1 !! l.
Proof.
  intros s0 s1 s2.
  pose proof (boot_heap_inv host w0 h0 reduced chk) as [Hb He].
  fold s0 in Hb, He. split; [exact He|].
  set (sa := run host s0 es1).
  assert (Ha : heap_inv (Math_round (inject_Z (w0 * h0) / 70000)) sa)
    by (apply (run_stable host _ (heap_inv_stable _)), Hb).
  assert (Hea : exported sa = Some (particles s0))
    by (apply (run_stable host _ (exported_stable _)), He).
  assert (Hs1 : s1 = resize host w h sa).
  { unfold s1, sa. rewrite run_app. reflexivity. }
  assert (Hf : frozen (particles s0) (arrays s1 !! particles s0) s1).
  { split; [|reflexivity]. rewrite Hs1.
    pose proof (resize_fields host w h sa) as F. cbv zeta in F.
    destruct F as (_ & _ & _ & _ & _ & _ & _ & _ & _ & _ & Fe & Fp & Fa).
    destruct Ha as (_ & _ & Hex). specialize (Hex _ Hea).
    unfold stale. rewrite Fe, Fp, Fa. split; [exact Hea|]. split.
    - intros Heq. apply elem_of_dom in Hex. rewrite Heq in Hex.
      exact (is_fresh _ Hex).
    - apply lookup_insert_is_Some'. right. exact Hex. }
  pose proof (run_stable host _ (frozen_stable _ _) es2 _ Hf) as Hr.
  fold s2 in Hr. destruct Hr as ((Hx & Hne & _) & Hv).
  exists (particles s0). auto.
Qed.

(** * Particle lifetime *)

(** C6: when the advanced [y] exceeds [H + 20], [update()] is [reset()]:
    the particle comes back with age 0 and every field redrawn, whatever
    its age and ttl were. *)
Theorem update_resets_out_of_bounds (host : Host) (W H : Z)
    (pal : list string) (sd : nat) (p : Particle.t) :
  (inject_Z H + 20 < Particle.y (Particle.advance host p))%Q ->
  Particle.update host W H pal sd p = Particle.reset host W H pal sd /\
  Particle.life (Particle.update host W H pal sd p).1 = 0.
Proof.
  intros Hy.
  assert (E : Particle.update host W H pal sd p = Particle.reset host W H pal sd).
  { apply update_expired. unfold Particle.expired.
    apply gt_true in Hy. rewrite Hy. reflexivity. }
  rewrite E. split; reflexivity.
Qed.

(** C10: a particle whose age is not negative satisfies
    0 <= life <= ttl when [update()] returns; and since ages start at 0,
    every particle of the pool satisfies it in every state the page can be
    in. *)
Theorem update_life_within_ttl (host : Host) (W H : Z)
    (pal : list string) (sd : nat) (p : Particle.t)
    (w0 h0 : Z) (reduced chk : bool) (es : list Event) :
  random_ok host -> 0 <= Particle.life p ->
  (0 <= Particle.life (Particle.update host W H pal sd p).1 /\
   (inject_Z (Particle.life (Particle.update host W H pal sd p).1)
    <= Particle.ttl (Particle.update host W H pal sd p).1)%Q) /\
  Forall age_ok (pool (run host (boot host w0 h0 reduced chk) es)).
Proof.
  intros Hr Hl. split; [exact (update_age_ok host Hr W H pal sd p Hl)|].
  apply (run_pool host (Forall age_ok)).
  - intros. now apply update_draw_age_ok.
  - intros. apply push_particles_age_ok; [exact Hr|constructor].
  - apply (boot_pool host (Forall age_ok)).
    + intros. now apply update_draw_age_ok.
    + intros. apply push_particles_age_ok; [exact Hr|constructor].
Qed.

(** C5 (as amended): a particle of age 0 whose [y] stays within the bound
    is not reset by its first floor(ttl) updates: they draw no random
    number, leave it with age floor(ttl), which does not exceed ttl, and
    with its ttl, colour, alpha and spin as they were; the next [update()]
    is a [reset()], which puts the age back to 0 and redraws ttl, colour,
    alpha, spin and position. *)
Theorem expiry_after_ttl_updates (host : Host) (W H : Z)
    (pal : list string) (sd : nat) (p : Particle.t) :
  Particle.life p = 0 -> (0 <= Particle.ttl p)%Q ->
  in_bounds host H (Z.to_nat (Math_floor (Particle.ttl p))) p = true ->
  let n := Z.to_nat (Math_floor (Particle.ttl p)) in
  let q := (updates host n W H pal sd p).1 in
  updates host n W H pal sd p = (flight host n p, sd) /\
  Particle.life q = Math_floor (Particle.ttl p) /\
  gt (inject_Z (Particle.life q)) (Particle.ttl q) = false /\
  (Particle.ttl q = Particle.ttl p /\ Particle.color q = Particle.color p /\
   Particle.alpha q = Particle.alpha p /\ Particle.spin q = Particle.spin p) /\
  Particle.update host W H pal sd q = Particle.reset host W H pal sd /\
  Particle.life (Particle.update host W H pal sd q).1 = 0.
Proof.
  intros Hl0 Httl Hb n q.
  assert (Hfl : 0 <= Math_floor (Particle.ttl p)).
  { unfold Math_floor. change 0 with (Qfloor 0). now apply Qfloor_resp_le. }
  assert (Hle : (inject_Z (Particle.life p + Z.of_nat n) <= Particle.ttl p)%Q).
  { unfold n. rewrite Hl0, Z2Nat.id by exact Hfl. apply Qfloor_le. }
  pose proof (in_bounds_no_reset host H n p Hb Hle) as Hn.
  pose proof (updates_no_reset host W H pal n sd p Hn) as Hu.
  assert (Hq : q = flight host n p) by (unfold q; now rewrite Hu).
  destruct (flight_keeps host n p) as (Kt & Kc & Ka & Ks & _).
  assert (Hlq : Particle.life q = Math_floor (Particle.ttl p)).
  { rewrite Hq, flight_life, Hl0. unfold n. rewrite Z2Nat.id by exact Hfl. lia. }
  assert (E : Particle.update host W H pal sd q = Particle.reset host W H pal sd).
  { apply update_expired. unfold Particle.expired.
    replace (gt (inject_Z (Particle.life (Particle.advance host q)))
                (Particle.ttl (Particle.advance host q))) with true;
      [apply orb_true_r|].
    symmetry. cbn [Particle.advance Particle.life Particle.ttl].
    rewrite Hlq, Hq, Kt. apply floor_succ_gt. }
  split; [exact Hu|]. split; [exact Hlq|]. split.
  - apply gt_false. rewrite Hlq, Hq, Kt. apply Qfloor_le.
  - rewrite Hq. split; [auto|]. rewrite <- Hq, E. split; reflexivity.
Qed.

(** C5, counterexample: a new particle with ttl 80 (every random draw 0),
    on a 700x700 surface, never leaves the bound during its first 80
    updates, and after them its age is 80, which does not exceed its ttl. *)
Lemma age_equals_ttl_after_ttl_updates :
  let pal := ["rgba(127,227,255,0.9)"%string] in
  let p := (Particle.new still_host 700 700 pal 0).1 in
  let q := (updates still_host 80 700 700 pal 9 p).1 in
  Particle.ttl p = 80%Q /\
  in_bounds still_host 700 80 p = true /\
  Particle.life q = 80 /\ Particle.ttl q = 80%Q /\
  gt (inject_Z (Particle.life q)) (Particle.ttl q) = false.
Proof. lazy. repeat split. Qed.

(** * The render loop *)

(** C2: under reduced motion, whatever events the page receives, the loop
    holds no handle, is not running, has no request for [render] pending,
    and a call of [render] there asks for no frame. *)
Theorem reduced_motion_never_runs (host : Host) (w h : Z) (chk : bool)
    (es : list Event) :
  let s := run host (boot host w h true chk) es in
  rafId s = None /\ running s = false /\
  render_requests (callbacks s) = [] /\
  callbacks (render host s) = callbacks s /\
  handle (render host s) = handle s /\
  rafId (render host s) = None.
Proof.
  intros s.
  assert (Hred : prefersReduced s = true).
  { unfold s. rewrite run_prefersReduced. apply boot_prefersReduced. }
  pose proof (run_loop_inv host es _ (boot_loop_inv host w h true chk)) as Hi.
  fold s in Hi. destruct Hi as (Hrr & Hnone & _ & _).
  specialize (Hnone Hred). rewrite Hnone in Hrr.
  pose proof (render_fields host s) as F. cbv zeta in F.
  destruct F as (_ & _ & _ & _ & _ & _ & _ & _ & _ & _ & F).
  rewrite Hred in F. destruct F as (Fc & Fh & Fr).
  unfold running. rewrite Fr, Hnone. repeat split; assumption.
Qed.

(** C3 (as amended): in every state the page can be in, unchecking the
    motion toggle cancels the pending request, drops the handle and leaves
    the surface blank; the document becoming hidden cancels the request and
    drops the handle too, but leaves the surface as it was. *)
Theorem stop_cancels_and_toggle_clears (host : Host) (w h : Z)
    (reduced chk : bool) (es : list Event) :
  let s := run host (boot host w h reduced chk) es in
  let s1 := step host s (MotionToggle false) in
  let s2 := step host s (VisibilityChange true) in
  (rafId s1 = None /\ render_requests (callbacks s1) = [] /\ bitmap s1 = []) /\
  (rafId s2 = None /\ render_requests (callbacks s2) = [] /\
   bitmap s2 = bitmap s).
Proof.
  intros s s1 s2.
  pose proof (run_loop_inv host es _ (boot_loop_inv host w h reduced chk)) as Hi.
  fold s in Hi. split.
  - assert (Hc : loop_inv (set_checked false s))
      by (eapply loop_inv_ext; [..|exact Hi]; reflexivity).
    destruct (stop_loop_inv _ Hc) as [_ Hrr].
    unfold s1. cbn [step on_change negb]. repeat split. exact Hrr.
  - destruct (stop_loop_inv _ Hi) as [_ Hrr].
    unfold s2. cbn [step on_visibilitychange]. repeat split. exact Hrr.
Qed.

(** C3, counterexample: with motion on, hiding the document right after
    startup leaves the first frame (overlay and 20 particles) on the
    surface. *)
Lemma hidden_leaves_last_frame :
  let s := run still_host (boot still_host 700 700 false true)
               [VisibilityChange true] in
  rafId s = None /\ length (bitmap s) = 21%nat /\ bitmap s <> [].
Proof.
  vm_compute. repeat split. discriminate.
Qed.

(** C8 (as amended): in every state the page can be in, the requests for
    [render] that are pending are exactly the handle the loop holds (one
    while running, none while stopped, and a held handle is never falsy);
    checking the motion toggle twice in a row leaves exactly one request
    pending when the reduced-motion preference is off, and none when it is
    on. *)
Theorem single_frame_request (host : Host) (w h : Z) (reduced chk : bool)
    (es : list Event) :
  let s := run host (boot host w h reduced chk) es in
  let s2 := run host s [MotionToggle true; MotionToggle true] in
  render_requests (callbacks s)
    = match rafId s with Some id => [id] | None => [] end /\
  (length (render_requests (callbacks s)) <= 1)%nat /\
  length (render_requests (callbacks s)) = (if running s then 1 else 0)%nat /\
  length (render_requests (callbacks s2)) = (if reduced then 0 else 1)%nat /\
  running s2 = negb reduced /\
  callbacks s2 = callbacks (step host s (MotionToggle true)).
Proof.
  intros s s2.
  pose proof (run_loop_inv host es _ (boot_loop_inv host w h reduced chk)) as Hi.
  fold s in Hi.
  assert (Hred : prefersReduced s = reduced).
  { unfold s. rewrite run_prefersReduced. apply boot_prefersReduced. }
  assert (Hrun : forall st, loop_inv st ->
            length (render_requests (callbacks st))
            = (if running st then 1 else 0)%nat).
  { intros st (Hrr & _ & Hpos & _). rewrite Hrr. unfold running.
    destruct (rafId st) as [id|]; [|reflexivity].
    specialize (Hpos id eq_refl). simpl.
    destruct (Z.eqb_spec id 0); [lia|reflexivity]. }
  split; [apply Hi|]. split; [rewrite (Hrun _ Hi); destruct (running s); lia|].
  split; [exact (Hrun _ Hi)|].
  set (s1 := step host s (MotionToggle true)).
  assert (Hi1 : loop_inv s1) by now apply step_loop_inv.
  assert (Hred1 : prefersReduced s1 = reduced).
  { change s1 with (run host s [MotionToggle true]).
    now rewrite run_prefersReduced. }
  assert (Hrun1 : running s1 = negb reduced).
  { destruct reduced.
    - destruct Hi1 as (_ & Hnone & _). unfold running.
      now rewrite (Hnone Hred1).
    - unfold s1. cbn [step on_change negb].
      change (rafId (set_checked true s)) with (rafId s).
      destruct (falsy (rafId s)) eqn:Ef.
      + pose proof (render_fields host (set_checked true s)) as F.
        cbv zeta in F.
        destruct F as (_ & _ & _ & _ & _ & _ & _ & _ & _ & _ & F).
        change (prefersReduced (set_checked true s))
          with (prefersReduced s) in F.
        rewrite Hred in F. destruct F as (_ & _ & Fr).
        unfold running. rewrite Fr. simpl.
        destruct Hi as (_ & _ & _ & Hh).
        change (handle (set_checked true s)) with (handle s).
        destruct (Z.eqb_spec (handle s + 1) 0); [lia|reflexivity].
      + unfold running. cbn [rafId set_checked]. now rewrite Ef. }
  assert (Hs2 : s2 = set_checked true s1 \/ s2 = render host (set_checked true s1) /\ reduced = true).
  { change s2 with (on_change host true s1). unfold on_change. cbn [negb].
    change (rafId (set_checked true s1)) with (rafId s1).
    unfold running in Hrun1. destruct (falsy (rafId s1)); [|now left].
    right. split; [reflexivity|]. destruct reduced; [reflexivity|discriminate]. }
  assert (Hi2 : loop_inv s2).
  { change s2 with (step host s1 (MotionToggle true)). now apply step_loop_inv. }
  assert (Hc2 : callbacks s2 = callbacks s1 /\ rafId s2 = rafId s1).
  { destruct Hs2 as [->|[-> Hr]]; [split; reflexivity|].
    pose proof (render_fields host (set_checked true s1)) as F. cbv zeta in F.
    destruct F as (_ & _ & _ & _ & _ & _ & _ & _ & _ & _ & F).
    change (prefersReduced (set_checked true s1)) with (prefersReduced s1) in F.
    rewrite Hred1, Hr in F. destruct F as (Fc & _ & Fr). auto. }
  destruct Hc2 as [Hc2 Hr2].
  assert (Hrun2 : running s2 = negb reduced)
    by (unfold running in *; now rewrite Hr2).
  split; [rewrite (Hrun _ Hi2), Hrun2; now destruct reduced|].
  split; [exact Hrun2|exact Hc2].
Qed.

(** C8, counterexample: under reduced motion, checking the toggle twice
    leaves no request pending. *)
Lemma reduced_motion_two_starts_none_pending :
  let s := run still_host (boot still_host 700 700 true false)
               [MotionToggle true; MotionToggle true] in
  render_requests (callbacks s) = [] /\ rafId s = None.
Proof. vm_compute. split; reflexivity. Qed.

(** * Bursts *)

(** C4 (as amended): given at least 27 frames, a burst paints exactly
    27 = ceil(420/16) times and then asks for no further frame; on its k-th
    tick (counting from 0) progress is 16(k+1)/420, so it increases
    strictly; it lies strictly between 0 and 1 on each of the first 26
    ticks.  On a page with nothing else pending, the closure of a burst is
    pending, with clock 16k, after each of the first 26 frames and after
    none of the later ones. *)
Theorem burst_tick_sequence (host : Host) (s : State) (rect : Rect)
    (fuel k : nat) :
  (27 <= fuel)%nat -> callbacks s = [] ->
  length (tick_chain fuel 0)
    = Z.to_nat (Qceiling (inject_Z duration / 16)) /\
  length (tick_chain fuel 0) = 27%nat /\
  tick_chain (S fuel) 0 = tick_chain fuel 0 /\
  (forall i, (i < 27)%nat ->
     tick_chain fuel 0 !! i
     = Some (inject_Z (16 * (Z.of_nat i + 1)) / inject_Z duration)%Q) /\
  (forall i j p q, (i < j)%nat ->
     tick_chain fuel 0 !! i = Some p -> tick_chain fuel 0 !! j = Some q ->
     (p < q)%Q) /\
  (forall i p, (i < 26)%nat -> tick_chain fuel 0 !! i = Some p ->
     (0 < p)%Q /\ (p < 1)%Q) /\
  (callbacks (run host (keyPulse rect s) (frames k))).*2
  = if (k <? 27)%nat
    then [CbFrame (left rect + width rect / 2) (top rect + height rect / 2)
                  (Math_max (width rect) (height rect) * 1.6)
                  (16 * Z.of_nat k)]
    else [].
Proof.
  intros Hf Hq.
  assert (Hlen : length (tick_chain fuel 0) = 27%nat)
    by (rewrite tick_chain_27 by exact Hf; reflexivity).
  split; [rewrite Hlen; reflexivity|]. split; [exact Hlen|].
  split; [rewrite (tick_chain_27 (S fuel)), (tick_chain_27 fuel) by lia;
          reflexivity|].
  split; [|split; [|split]].
  - intros i Hi.
    destruct (lookup_lt_is_Some_2 (tick_chain fuel 0) i) as [p Hp]; [lia|].
    rewrite Hp. destruct (tick_chain_lookup _ _ _ _ Hp) as [-> _].
    reflexivity.
  - intros i j p q Hij Hp Hq'.
    destruct (tick_chain_lookup _ _ _ _ Hp) as [-> _].
    destruct (tick_chain_lookup _ _ _ _ Hq') as [-> _].
    apply progress_lt. lia.
  - intros i p Hi Hp.
    destruct (tick_chain_lookup _ _ _ _ Hp) as [-> _].
    apply progress_range. unfold duration. lia.
  - assert (Hc : callbacks (keyPulse rect s)
                 = [(handle s + 1,
                     CbFrame (left rect + width rect / 2)
                             (top rect + height rect / 2)
                             (Math_max (width rect) (height rect) * 1.6) 0)]).
    { unfold keyPulse, burstLight. simpl. now rewrite Hq. }
    rewrite (burst_chain host _ _ _ k _ _ _ Hc) by (unfold duration; lia).
    replace (0 + 16 * Z.of_nat k) with (16 * Z.of_nat k) by lia.
    destruct (Nat.ltb_spec k 27), (Z.ltb_spec (16 * Z.of_nat k) duration);
      unfold duration in *; try lia; reflexivity.
Qed.

(** C4, counterexample: the 27th tick paints with progress 432/420, which
    is above 1; on the page it is a fill of radius r * (0.4 + 432/420) whose
    inner stop has the negative alpha 0.35 * (1 - 432/420). *)
Lemma last_tick_overshoots :
  tick_chain 27 0 !! 26%nat = Some (432 # 420)%Q /\ (1 < 432 # 420)%Q /\
  last (bitmap (run sample_host (boot sample_host 700 700 true false)
                    (Activate sample_rect :: frames 27)))
  = Some (FillBurst (260 # 2) (128 # 2) 96.0 (5760000 # 42000)
            "rgba(160,240,255,-420/42000)").
Proof. split; [|split]; [vm_compute; reflexivity|reflexivity|vm_compute; reflexivity]. Qed.

(** * The palette *)

(** C7: randomizing replaces every palette entry by a new string and leaves
    the pool as it is; a particle keeps its colour through any number of
    updates that do not reset it, and a particle reset afterwards gets one
    of the new entries. *)
Theorem randomize_affects_future_resets_only (host : Host) (s : State)
    (n sd : nat) (p : Particle.t) :
  random_ok host -> palette s <> [] ->
  no_reset host (H s) n p = true ->
  let s' := on_randomize host s in
  length (palette s') = length (palette s) /\
  (forall i, (i < length (palette s))%nat ->
     palette s' !! i = Some (fresh_color host (seed s + 4 * i))) /\
  pool s' = pool s /\
  Particle.color (updates host n (W s') (H s') (palette s') sd p).1
    = Particle.color p /\
  exists c,
    Particle.color (Particle.reset host (W s') (H s') (palette s') sd).1
      = Some c /\ c ∈ palette s'.
Proof.
  intros Hr Hne Hn s'.
  pose proof (on_randomize_fields host s) as F. cbv zeta in F. fold s' in F.
  destruct F as (FW & FH & _ & _ & _ & _ & Fp & Fa & _ & _ & _ & _ & Fpal).
  assert (Hlen : length (palette s') = length (palette s))
    by (rewrite Fpal; apply randomize_length).
  split; [exact Hlen|]. split; [|split; [|split]].
  - intros i Hi. rewrite Fpal. now apply randomize_lookup.
  - unfold pool. now rewrite Fp, Fa.
  - rewrite FH, updates_no_reset by exact Hn. cbn [fst].
    apply (flight_keeps host n p).
  - apply reset_color_in_palette; [exact Hr|].
    intros Hnil. rewrite Hnil in Hlen. destruct (palette s); [congruence|].
    discriminate.
Qed.

(** * Instances *)

Lemma still_host_random_ok : random_ok still_host.
Proof. intros n. simpl. split; [apply Qle_refl|reflexivity]. Qed.

Lemma sample_host_random_ok : random_ok sample_host.
Proof.
  intros n. simpl. unfold Qle, Qlt. simpl.
  pose proof (Z.mod_pos_bound (Z.of_nat n * 37 + 11) 100 eq_refl). lia.
Qed.

(** A particle one step from the lower edge of a 700x700 surface, still
    young: the update that takes it past [H + 20] resets it. *)
Lemma update_resets_out_of_bounds_witness :
  let p := {| Particle.x := 10; Particle.y := 719.5; Particle.vy := 1;
              Particle.vx := 0; Particle.size := 2; Particle.life := 3;
              Particle.ttl := 250; Particle.color := None;
              Particle.alpha := 0.5; Particle.spin := 0.01 |} in
  (inject_Z 700 + 20 < Particle.y (Particle.advance sample_host p))%Q /\
  Particle.update sample_host 700 700 [] 0 p
    = Particle.reset sample_host 700 700 [] 0 /\
  Particle.life (Particle.update sample_host 700 700 [] 0 p).1 = 0.
Proof.
  intros p.
  assert (Hy : (inject_Z 700 + 20
                < Particle.y (Particle.advance sample_host p))%Q)
    by reflexivity.
  split; [exact Hy|].
  exact (update_resets_out_of_bounds sample_host 700 700 [] 0 p Hy).
Defined.

Lemma update_life_within_ttl_witness :
  let pal := ["rgba(127,227,255,0.9)"; "rgba(123,216,255,0.85)"]%string in
  let p := (Particle.new sample_host 700 700 pal 0).1 in
  let p' := (Particle.update sample_host 700 700 pal 9 p).1 in
  let s := run sample_host (boot sample_host 700 700 false true)
               [AnimationFrame; Resize 900 600; AnimationFrame] in
  0 <= Particle.life p /\
  (0 <= Particle.life p' /\ (inject_Z (Particle.life p') <= Particle.ttl p')%Q)
  /\ Forall age_ok (pool s).
Proof.
  intros pal p p' s.
  assert (Hl : 0 <= Particle.life p) by (simpl; lia).
  split; [exact Hl|].
  exact (update_life_within_ttl sample_host 700 700 pal 9 p 700 700 false true
           [AnimationFrame; Resize 900 600; AnimationFrame]
           sample_host_random_ok Hl).
Defined.

Lemma expiry_after_ttl_updates_witness :
  let pal := ["rgba(127,227,255,0.9)"%string] in
  let p := (Particle.new still_host 700 700 pal 0).1 in
  let q := (updates still_host 80 700 700 pal 9 p).1 in
  Particle.life p = 0 /\ (0 <= Particle.ttl p)%Q /\
  in_bounds still_host 700 (Z.to_nat (Math_floor (Particle.ttl p))) p = true /\
  Particle.life q = 80 /\
  Particle.update still_host 700 700 pal 9 q
    = Particle.reset still_host 700 700 pal 9.
Proof.
  intros pal p q.
  assert (H1 : Particle.life p = 0) by reflexivity.
  assert (H2 : (0 <= Particle.ttl p)%Q) by (lazy; discriminate).
  assert (H3 : in_bounds still_host 700
                 (Z.to_nat (Math_floor (Particle.ttl p))) p = true)
    by (lazy; reflexivity).
  split; [exact H1|]. split; [exact H2|]. split; [exact H3|].
  pose proof (expiry_after_ttl_updates still_host 700 700 pal 9 p H1 H2 H3)
    as T.
  cbv zeta in T. destruct T as (_ & T1 & _ & _ & T2 & _).
  split; [exact T1|exact T2].
Defined.

Lemma burst_tick_sequence_witness :
  let s := boot sample_host 700 700 true false in
  (27 <= 30)%nat /\ callbacks s = [] /\
  length (tick_chain 30 0) = 27%nat /\
  tick_chain 31 0 = tick_chain 30 0 /\
  (callbacks (run sample_host (keyPulse sample_rect s) (frames 27))).*2 = [].
Proof.
  intros s.
  assert (Hf : (27 <= 30)%nat) by lia.
  assert (Hq : callbacks s = []) by (vm_compute; reflexivity).
  split; [exact Hf|]. split; [exact Hq|].
  destruct (burst_tick_sequence sample_host s sample_rect 30 27 Hf Hq)
    as (_ & T1 & T2 & _ & _ & _ & T3).
  split; [exact T1|]. split; [exact T2|exact T3].
Defined.

Lemma randomize_affects_future_resets_only_witness :
  let s := boot sample_host 700 700 true false in
  let p := (Particle.new sample_host 700 700 (palette s) 0).1 in
  let s' := on_randomize sample_host s in
  palette s <> [] /\ no_reset sample_host (H s) 5 p = true /\
  length (palette s') = 4%nat /\ pool s' = pool s /\
  Particle.color (updates sample_host 5 (W s') (H s') (palette s') 0 p).1
    = Particle.color p.
Proof.
  intros s p s'.
  assert (H1 : palette s <> []) by (lazy; discriminate).
  assert (H2 : no_reset sample_host (H s) 5 p = true) by (lazy; reflexivity).
  split; [exact H1|]. split; [exact H2|].
  destruct (randomize_affects_future_resets_only sample_host s 5 0 p
              sample_host_random_ok H1 H2) as (T1 & _ & T2 & T3 & _).
  split; [exact T1|]. split; [exact T2|exact T3].
Defined.

(** * Further properties *)

(** ** Invariants of the particle field *)

Lemma field_inv_same ok P (s s' : State) :
  W s' = W s -> H s' = H s -> palette s' = palette s ->
  particles s' = particles s -> arrays s' = arrays s ->
  field_inv ok P s -> field_inv ok P s'.
Proof.
  unfold field_inv, pool. intros -> -> -> -> ->. exact id.
Qed.

Section FieldFacts.
Variable host : Host.
Variable ok : Z -> Z -> Prop.
Variable P : Z -> Z -> list string -> list Particle.t -> Prop.
Hypothesis P_init : forall n W0 H0 W H pal ps sd,
  P W0 H0 pal ps -> ok W H ->
  P W H pal (push_particles host n W H pal [] sd).1.
Hypothesis P_update : forall W H pal ps sd,
  ok W H -> P W H pal ps ->
  P W H pal (update_draw host W H pal ps sd).1.1.
Hypothesis P_randomize : forall W H pal ps sd,
  P W H pal ps -> P W H (randomize host pal sd).1 ps.

Lemma initParticles_field_inv s :
  field_inv ok P s -> field_inv ok P (initParticles host s).
Proof.
  intros [Hd Hp].
  pose proof (initParticles_fields host s) as F. cbv zeta in F.
  destruct F as (FW & FH & _ & _ & Fpal & _ & _ & _ & _ & _ & _ & Fp & Fa).
  unfold field_inv, pool. rewrite FW, FH, Fpal, Fp, Fa, lookup_insert_eq.
  split; [auto|]. cbn [default]. eapply P_init; eauto.
Qed.

Lemma resize_field_inv w h s :
  ok w h -> field_inv ok P s -> field_inv ok P (resize host w h s).
Proof.
  intros Hd [_ Hp].
  pose proof (resize_fields host w h s) as F. cbv zeta in F.
  destruct F as (FW & FH & _ & _ & Fpal & _ & _ & _ & _ & _ & _ & Fp & Fa).
  unfold field_inv, pool. rewrite FW, FH, Fpal, Fp, Fa, lookup_insert_eq.
  split; [auto|]. cbn [default]. eapply P_init; eauto.
Qed.

Lemma render_field_inv s : field_inv ok P s -> field_inv ok P (render host s).
Proof.
  intros [Hd Hp].
  pose proof (render_fields host s) as F. cbv zeta in F.
  destruct F as (FW & FH & _ & _ & Fpal & _ & _ & Fp & Fa & _).
  unfold field_inv. unfold pool at 1.
  rewrite FW, FH, Fpal, Fp, Fa, lookup_insert_eq.
  split; [auto|]. cbn [default]. now apply P_update.
Qed.

Lemma run_frame_field_inv s : field_inv ok P s -> field_inv ok P (run_frame host s).
Proof.
  intros Hi. unfold run_frame.
  assert (H1 : field_inv ok P (set_callbacks [] (handle s) s))
    by (eapply field_inv_same; [..|exact Hi]; reflexivity).
  revert H1. generalize (set_callbacks [] (handle s) s).
  induction (callbacks s) as [|[h0 cb] cbs IH]; intros s1 H1; simpl;
    [exact H1|].
  apply IH. unfold invoke. destruct cb as [|cx cy r t]; simpl snd.
  - now apply render_field_inv.
  - pose proof (frame_fields host cx cy r t s1) as F. cbv zeta in F.
    eapply field_inv_same; [..|exact H1]; tauto.
Qed.

Lemma step_field_inv s e :
  event_dims ok e -> field_inv ok P s -> field_inv ok P (step host s e).
Proof.
  intros Hv Hi. destruct e; simpl in *.
  - now apply resize_field_inv.
  - unfold on_change.
    assert (Hc : field_inv ok P (set_checked chk s))
      by (eapply field_inv_same; [..|exact Hi]; reflexivity).
    destruct chk; cbn [negb].
    + destruct (falsy _); [now apply render_field_inv|exact Hc].
    + eapply field_inv_same; [..|exact Hc]; reflexivity.
  - pose proof (on_randomize_fields host s) as F. cbv zeta in F.
    destruct F as (FW & FH & _ & _ & _ & _ & Fp & Fa & _ & _ & _ & _ & Fpal).
    destruct Hi as [Hd Hp]. unfold field_inv, pool.
    rewrite FW, FH, Fpal, Fp, Fa. split; [exact Hd|]. now apply P_randomize.
  - eapply field_inv_same; [..|exact Hi]; reflexivity.
  - unfold on_visibilitychange. destruct hidden.
    + eapply field_inv_same; [..|exact Hi]; reflexivity.
    + destruct (_ && _); [now apply render_field_inv|exact Hi].
  - now apply run_frame_field_inv.
  - now apply initParticles_field_inv.
  - eapply field_inv_same; [..|exact Hi]; reflexivity.
Qed.

Lemma run_field_inv es : forall s,
  Forall (event_dims ok) es -> field_inv ok P s -> field_inv ok P (run host s es).
Proof.
  induction es as [|e es IH]; intros s Hv Hi; simpl; [exact Hi|].
  inversion Hv as [|e0 es0 He Hes]; subst.
  apply IH; [exact Hes|]. now apply step_field_inv.
Qed.

Lemma boot_field_inv w h reduced chk :
  ok w h -> P w h palette0 [] ->
  field_inv ok P (boot host w h reduced chk).
Proof.
  intros Hd Hp. unfold boot, start.
  set (s0 := mkState _ _ _ _ _ _ _ _ _ _ _ _ _ _).
  assert (H0 : field_inv ok P s0) by (split; assumption).
  assert (H1 : field_inv ok P (resize host w h s0)) by now apply resize_field_inv.
  eapply field_inv_same with
    (s := if negb (prefersReduced (resize host w h s0))
          then render host (resize host w h s0) else resize host w h s0);
    try reflexivity.
  destruct (negb _); [now apply render_field_inv|exact H1].
Qed.

End FieldFacts.

Lemma any_event_dims es : Forall (event_dims (fun _ _ => True)) es.
Proof. induction es as [|e es IH]; constructor; [destruct e; exact I|exact IH]. Qed.

Section FieldGeneric.
Variable host : Host.
Variable Ok : Particle.t -> Prop.

Lemma update_draw_Forall W H pal ps : forall sd,
  (forall sd p, Ok p -> Ok (Particle.update host W H pal sd p).1) ->
  Forall Ok ps -> Forall Ok (update_draw host W H pal ps sd).1.1.
Proof.
  intros sd Hu. revert sd.
  induction ps as [|p ps IH]; intros sd Hf; cbn [update_draw].
  - constructor.
  - inversion Hf as [|p0 ps0 Hp Hps]; subst.
    pose proof (Hu sd p Hp) as Hp'.
    destruct (Particle.update host W H pal sd p) as [p' sd1].
    specialize (IH sd1 Hps).
    destruct (update_draw host W H pal ps sd1) as [[rest paints] sd2].
    simpl in *. constructor; assumption.
Qed.

Lemma push_particles_Forall n W H pal : forall acc sd,
  (forall sd, Ok (Particle.reset host W H pal sd).1) ->
  Forall Ok acc -> Forall Ok (push_particles host n W H pal acc sd).1.
Proof.
  intros acc sd Hr. revert acc sd.
  induction n as [|n IH]; intros acc sd Hf; cbn [push_particles].
  - exact Hf.
  - unfold Particle.new. pose proof (Hr sd) as Hp.
    destruct (Particle.reset host W H pal sd) as [p sd'].
    apply IH. apply Forall_app. split; [exact Hf|].
    constructor; [exact Hp|constructor].
Qed.

End FieldGeneric.

Section ResetFacts.
Variable host : Host.
Hypothesis host_ok : random_ok host.

Lemma reset_constants_ok W H pal sd :
  constants_ok (Particle.reset host W H pal sd).1.
Proof.
  unfold constants_ok. cbn [Particle.reset fst Particle.vy Particle.size
    Particle.ttl Particle.alpha Particle.spin].
  destruct (host_ok (sd + 2)%nat), (host_ok (sd + 4)%nat),
    (host_ok (sd + 5)%nat), (host_ok (sd + 7)%nat), (host_ok (sd + 8)%nat).
  repeat split; lra.
Qed.

Lemma reset_spawn_ok W H pal sd :
  0 <= W -> 0 <= H -> spawn_ok W H (Particle.reset host W H pal sd).1.
Proof.
  intros HW HH. unfold spawn_ok. cbn [Particle.reset fst Particle.x Particle.y
    Particle.vx Particle.life].
  destruct (host_ok sd), (host_ok (sd + 1)%nat), (host_ok (sd + 3)%nat).
  assert (HWq : (0 <= inject_Z W)%Q) by (change 0%Q with (inject_Z 0); now rewrite <- Zle_Qle).
  assert (HHq : (0 <= inject_Z H)%Q) by (change 0%Q with (inject_Z 0); now rewrite <- Zle_Qle).
  split; [|reflexivity]. repeat split; nra.
Qed.

Lemma update_constants_ok W H pal sd p :
  constants_ok p -> constants_ok (Particle.update host W H pal sd p).1.
Proof.
  intros Hc. unfold Particle.update. destruct (Particle.expired _ _).
  - apply reset_constants_ok.
  - exact Hc.
Qed.

Lemma update_y_ok W H pal sd p :
  0 <= H -> y_ok H p /\ constants_ok p ->
  y_ok H (Particle.update host W H pal sd p).1 /\
  constants_ok (Particle.update host W H pal sd p).1.
Proof.
  intros HH [Hy Hc]. split; [|now apply update_constants_ok].
  assert (HHq : (0 <= inject_Z H)%Q) by (change 0%Q with (inject_Z 0); now rewrite <- Zle_Qle).
  unfold Particle.update.
  destruct (Particle.expired H (Particle.advance host p)) eqn:E.
  - destruct (reset_spawn_ok 0 H pal sd ltac:(lia) HH) as [(_ & _ & Hlo & Hhi & _) _].
    unfold y_ok. cbn [Particle.reset fst Particle.y] in *. split; lra.
  - unfold Particle.expired in E. apply orb_false_iff in E as [E _].
    apply gt_false in E. destruct Hy as [Hlo _].
    destruct Hc as (Hvy & _).
    unfold y_ok. cbn [fst Particle.advance Particle.y] in *. split; lra.
Qed.

End ResetFacts.



(** X3: the palette always has its four entries, and every particle of the
    pool always has a colour (the palette index computed by [reset()] never
    falls outside the palette). *)
Theorem pool_colours_defined (host : Host) (w0 h0 : Z)
    (reduced chk : bool) (es : list Event) :
  random_ok host ->
  length (palette (run host (boot host w0 h0 reduced chk) es)) = 4%nat /\
  Forall (fun p => is_Some (Particle.color p))
         (pool (run host (boot host w0 h0 reduced chk) es)).
Proof.
  intros Hr.
  set (P := fun (W H : Z) (pal : list string) (ps : list Particle.t) =>
              length pal = 4%nat /\
              Forall (fun p => is_Some (Particle.color p)) ps).
  assert (Hreset : forall W H pal sd, length pal = 4%nat ->
            is_Some (Particle.color (Particle.reset host W H pal sd).1)).
  { intros W H pal sd Hl.
    destruct (reset_color_in_palette host W H pal sd Hr) as (c & Hc & _).
    - intros ->. discriminate.
    - rewrite Hc. eauto. }
  enough (Hf : field_inv (fun _ _ => True) P
                 (run host (boot host w0 h0 reduced chk) es))
    by (destruct Hf as [_ Hf]; exact Hf).
  apply run_field_inv with (host := host); [ | | |apply any_event_dims|].
  - intros n W0 H0 W H pal ps sd [Hl _] _. split; [exact Hl|].
    apply push_particles_Forall; [|constructor]. intros sd0. now apply Hreset.
  - intros W H pal ps sd _ [Hl Hf]. split; [exact Hl|].
    apply update_draw_Forall; [|exact Hf].
    intros sd0 p Hp. unfold Particle.update.
    destruct (Particle.expired _ _); [now apply Hreset|exact Hp].
  - intros W H pal ps sd [Hl Hf]. split; [|exact Hf].
    now rewrite randomize_length.
  - apply boot_field_inv; [ | |exact I|split; [reflexivity|constructor]].
    + intros n W0 H0 W H pal ps sd [Hl _] _. split; [exact Hl|].
      apply push_particles_Forall; [|constructor]. intros sd0. now apply Hreset.
    + intros W H pal ps sd _ [Hl Hf]. split; [exact Hl|].
      apply update_draw_Forall; [|exact Hf].
      intros sd0 p Hp. unfold Particle.update.
      destruct (Particle.expired _ _); [now apply Hreset|exact Hp].
Qed.

(** X4: as long as no viewport has a negative side, every particle of the
    pool stays, in every state the page can be in, between half a surface
    height above the top edge and 20 below the bottom edge of the current
    surface. *)
Theorem pool_within_vertical_bounds (host : Host) (w0 h0 : Z)
    (reduced chk : bool) (es : list Event) :
  random_ok host -> 0 <= w0 -> 0 <= h0 -> Forall viewport_ok es ->
  Forall (y_ok (H (run host (boot host w0 h0 reduced chk) es)))
         (pool (run host (boot host w0 h0 reduced chk) es)).
Proof.
  intros Hr Hw Hh Hv.
  set (P := fun (W H : Z) (pal : list string) (ps : list Particle.t) =>
              Forall (fun p => y_ok H p /\ constants_ok p) ps).
  assert (Hinit : forall n W0 H0 W H pal ps sd,
            P W0 H0 pal ps -> nonneg W H ->
            P W H pal (push_particles host n W H pal [] sd).1).
  { intros n W0 H0 W H pal ps sd _ [HW HH].
    apply push_particles_Forall; [|constructor]. intros sd0.
    split; [|now apply reset_constants_ok].
    destruct (reset_spawn_ok host Hr W H pal sd0 HW HH)
      as [(_ & _ & Hlo & Hhi & _) _].
    assert (HHq : (0 <= inject_Z H)%Q)
      by (change 0%Q with (inject_Z 0); now rewrite <- Zle_Qle).
    unfold y_ok. split; lra. }
  assert (Hupd : forall W H pal ps sd,
            nonneg W H -> P W H pal ps ->
            P W H pal (update_draw host W H pal ps sd).1.1).
  { intros W H pal ps sd [_ HH] Hf. apply update_draw_Forall; [|exact Hf].
    intros sd0 p Hp. now apply update_y_ok. }
  enough (Hf : field_inv nonneg P (run host (boot host w0 h0 reduced chk) es)).
  { destruct Hf as [_ Hf]. eapply Forall_impl; [exact Hf|].
    intros p [Hy _]. exact Hy. }
  apply run_field_inv with (host := host);
    [exact Hinit|exact Hupd|intros; assumption|exact Hv|].
  apply boot_field_inv; [exact Hinit|exact Hupd|split; assumption|constructor].
Qed.

(** ** What a frame paints *)

Section PaintFacts.
Variable host : Host.

Lemma update_draw_paints W H pal ps : forall sd,
  (update_draw host W H pal ps sd).1.2
  = map draw (update_draw host W H pal ps sd).1.1.
Proof.
  induction ps as [|p ps IH]; intros sd; cbn [update_draw].
  - reflexivity.
  - destruct (Particle.update host W H pal sd p) as [p' sd1].
    specialize (IH sd1).
    destruct (update_draw host W H pal ps sd1) as [[rest paints] sd2].
    simpl in *. now rewrite IH.
Qed.

Lemma render_pool_eq s :
  pool (render host s)
  = (update_draw host (W s) (H s) (palette s) (pool s) (seed s)).1.1.
Proof.
  pose proof (render_fields host s) as F. cbv zeta in F.
  destruct F as (_ & _ & _ & _ & _ & _ & _ & Fp & Fa & _).
  unfold pool at 1. now rewrite Fp, Fa, lookup_insert_eq.
Qed.

Lemma draw_paint_ok p : paint_ok (draw p).
Proof.
  unfold draw, paint_ok, Math_max, Math_min.
  destruct (Qle_bool (Particle.alpha p) 0.95) eqn:E1.
  - destruct (Qle_bool 0.05 (Particle.alpha p)) eqn:E2.
    + apply Qle_bool_iff in E1, E2. auto.
    + split; [apply Qle_refl|discriminate].
  - split; [discriminate|apply Qle_refl].
Qed.

Lemma frame_bitmap cx cy r t s :
  exists pt, bitmap (frame host cx cy r t s) = bitmap s ++ [pt] /\
             paint_ok pt.
Proof.
  unfold frame, tick. eexists. split.
  - destruct (t + 16 <? duration); reflexivity.
  - exact I.
Qed.

Lemma render_paint_ok s : Forall paint_ok (bitmap (render host s)).
Proof.
  pose proof (render_fields host s) as F. cbv zeta in F.
  destruct F as (_ & _ & _ & _ & _ & _ & _ & _ & _ & Fb & _).
  rewrite Fb, update_draw_paints. constructor; [exact I|].
  apply Forall_map. apply Forall_forall. intros p _. apply draw_paint_ok.
Qed.

Lemma run_frame_paint_ok s :
  Forall paint_ok (bitmap s) -> Forall paint_ok (bitmap (run_frame host s)).
Proof.
  intros Hb. unfold run_frame.
  change (bitmap s) with (bitmap (set_callbacks [] (handle s) s)) in Hb.
  revert Hb. generalize (set_callbacks [] (handle s) s).
  induction (callbacks s) as [|[h0 cb] cbs IH]; intros s1 H1; simpl;
    [exact H1|].
  apply IH. unfold invoke. destruct cb as [|cx cy r t]; simpl snd.
  - apply render_paint_ok.
  - destruct (frame_bitmap cx cy r t s1) as (pt & -> & Hpt).
    apply Forall_app. split; [exact H1|]. constructor; [exact Hpt|constructor].
Qed.

Lemma step_paint_ok s e :
  Forall paint_ok (bitmap s) -> Forall paint_ok (bitmap (step host s e)).
Proof.
  intros Hb. destruct e; simpl.
  - pose proof (resize_fields host w h s) as F. cbv zeta in F.
    destruct F as (_ & _ & _ & _ & _ & _ & -> & _). constructor.
  - unfold on_change. destruct chk; cbn [negb]; [|constructor].
    destruct (falsy _); [apply render_paint_ok|exact Hb].
  - pose proof (on_randomize_fields host s) as F. cbv zeta in F.
    destruct F as (_ & _ & _ & _ & _ & _ & _ & _ & _ & -> & _). exact Hb.
  - exact Hb.
  - unfold on_visibilitychange. destruct hidden; [exact Hb|].
    destruct (_ && _); [apply render_paint_ok|exact Hb].
  - now apply run_frame_paint_ok.
  - pose proof (initParticles_fields host s) as F. cbv zeta in F.
    destruct F as (_ & _ & _ & _ & _ & _ & -> & _). exact Hb.
  - exact Hb.
Qed.

Lemma render_bitmap_eq s :
  bitmap (render host s)
  = FillOverlay (W s) (H s) :: map draw (pool (render host s)).
Proof.
  pose proof (render_fields host s) as F. cbv zeta in F.
  destruct F as (_ & _ & _ & _ & _ & _ & _ & _ & _ & Fb & _).
  now rewrite Fb, update_draw_paints, render_pool_eq.
Qed.

End PaintFacts.

(** X5: a call of [render] leaves on the surface exactly the overlay
    followed by one flake per particle, in pool order, each drawn from the
    particle as it is after its update; nothing painted before the call (an
    earlier frame, bursts) remains. *)
Theorem render_repaints_from_blank (host : Host) (s : State) :
  bitmap (render host s)
  = FillOverlay (W s) (H s) :: map draw (pool (render host s)) /\
  length (bitmap (render host s)) = S (length (pool s)).
Proof.
  rewrite render_bitmap_eq, render_pool_eq. split; [reflexivity|].
  cbn [length]. now rewrite length_map, update_draw_length.
Qed.

(** X6: in every state the page can be in, every flake on the surface was
    painted with a [globalAlpha] within [0.05, 0.95]. *)
Theorem flakes_painted_with_clamped_alpha (host : Host) (w0 h0 : Z)
    (reduced chk : bool) (es : list Event) :
  Forall paint_ok (bitmap (run host (boot host w0 h0 reduced chk) es)).
Proof.
  assert (Hb : Forall paint_ok (bitmap (boot host w0 h0 reduced chk))).
  { unfold boot, start.
    set (s0 := mkState _ _ _ _ _ _ _ _ _ _ _ _ _ _).
    change (bitmap (set_exported ?e ?s)) with (bitmap s).
    destruct (negb _); [apply render_paint_ok|].
    pose proof (resize_fields host w0 h0 s0) as F. cbv zeta in F.
    destruct F as (_ & _ & _ & _ & _ & _ & -> & _). constructor. }
  revert Hb. generalize (boot host w0 h0 reduced chk).
  induction es as [|e es IH]; intros s Hb; simpl; [exact Hb|].
  apply IH. now apply step_paint_ok.
Qed.

(** ** Life cycle of the loop *)

Lemma boot_loaded (host : Host) (w h : Z) (reduced chk : bool) :
  exists s1,
    boot host w h reduced chk
    = (let s2 := if negb reduced then render host s1 else s1 in
       set_exported (Some (particles s2)) s2) /\
    W s1 = w /\ H s1 = h /\ rafId s1 = None /\ bitmap s1 = [] /\
    callbacks s1 = [] /\ handle s1 = 0 /\ checked s1 = chk /\
    prefersReduced s1 = reduced.
Proof.
  unfold boot, start.
  set (s0 := mkState _ _ _ _ _ _ _ _ _ _ _ _ _ _).
  pose proof (resize_fields host w h s0) as F. cbv zeta in F.
  destruct F as (FW & FH & _ & Fred & _ & Fr & Fb & Fc & Fh & Fchk & _).
  exists (resize host w h s0). rewrite Fred.
  repeat split; assumption || reflexivity.
Qed.

(** X7: after loading, the loop runs exactly when the reduced-motion
    preference is off, whatever the state of the motion toggle: its request
    has handle 1, the first frame is already painted, and the exported array
    is the pool.  Under reduced motion nothing is pending and the surface is
    blank. *)
Theorem loop_after_loading (host : Host) (w h : Z) (reduced chk : bool) :
  let s := boot host w h reduced chk in
  running s = negb reduced /\
  rafId s = (if reduced then None else Some 1) /\
  callbacks s = (if reduced then [] else [(1, CbRender)]) /\
  bitmap s = (if reduced then []
              else FillOverlay w h :: map draw (pool s)) /\
  checked s = chk /\ W s = w /\ H s = h /\
  exported s = Some (particles s).
Proof.
  intros s. pose proof (boot_loaded host w h reduced chk) as (s1 & Hs & F).
  fold s in Hs. destruct F as (FW & FH & Fr & Fb & Fc & Fh & Fchk & Fred).
  cbv zeta in Hs. destruct reduced; cbn [negb] in Hs; rewrite Hs.
  - unfold running, pool. cbn [set_exported rafId callbacks bitmap checked W H
      exported particles arrays].
    rewrite Fr, Fc, Fb, Fchk, FW, FH. repeat split.
  - pose proof (render_fields host s1) as G. cbv zeta in G.
    destruct G as (GW & GH & _ & Gred & _ & Gchk & _ & _ & _ & _ & G).
    rewrite Fred in G. destruct G as (Gc & _ & Gr).
    pose proof (render_bitmap_eq host s1) as Gb.
    change (pool (set_exported ?e ?x)) with (pool x).
    unfold running. cbn [set_exported rafId callbacks bitmap checked W H
      exported particles].
    rewrite Gr, Gc, Gb, Gchk, GW, GH, Fh, Fc, Fchk, FW, FH. repeat split.
Qed.

(** X8: hiding the document and showing it again leaves the loop running
    exactly when the motion toggle is checked and the reduced-motion
    preference is off, whether it was running before or not: a loop that
    was started at load time with the toggle unchecked does not resume. *)
Theorem hide_then_show (host : Host) (w h : Z) (reduced chk : bool)
    (es : list Event) :
  let s := run host (boot host w h reduced chk) es in
  let s' := run host s [VisibilityChange true; VisibilityChange false] in
  running s' = checked s && negb reduced /\
  length (render_requests (callbacks s'))
  = (if checked s && negb reduced then 1 else 0)%nat.
Proof.
  intros s s'.
  pose proof (run_loop_inv host es _ (boot_loop_inv host w h reduced chk)) as Hi.
  fold s in Hi.
  assert (Hred : prefersReduced s = reduced).
  { unfold s. rewrite run_prefersReduced. apply boot_prefersReduced. }
  set (s1 := set_rafId None (cancelAnimationFrame (rafId s) s)).
  destruct (stop_loop_inv s Hi) as [Hi1 Hrr1]. fold s1 in Hi1, Hrr1.
  assert (Hs' : s' = if checked s && negb reduced then render host s1 else s1).
  { unfold s'. cbn [run fold_left step on_visibilitychange]. fold s1.
    change (falsy (rafId s1)) with true. cbn [andb].
    change (checked s1) with (checked s).
    change (prefersReduced s1) with (prefersReduced s). now rewrite Hred. }
  rewrite Hs'. destruct (checked s && negb reduced) eqn:E.
  - apply andb_true_iff in E as [_ E]. apply negb_true_iff in E.
    pose proof (render_fields host s1) as F. cbv zeta in F.
    destruct F as (_ & _ & _ & _ & _ & _ & _ & _ & _ & _ & F).
    change (prefersReduced s1) with (prefersReduced s) in F.
    rewrite Hred, E in F. destruct F as (Fc & _ & Fr).
    unfold running. rewrite Fr, Fc, render_requests_app, Hrr1.
    change (handle s1) with (handle s). destruct Hi as (_ & _ & _ & Hh).
    cbn [falsy]. destruct (Z.eqb_spec (handle s + 1) 0); [lia|].
    split; reflexivity.
  - rewrite Hrr1. split; reflexivity.
Qed.

(** ** Handles *)

Lemma handles_inv_ext (s s' : State) :
  callbacks s' = callbacks s -> handle s' = handle s ->
  handles_inv s -> handles_inv s'.
Proof. unfold handles_inv. intros -> ->. exact id. Qed.

Lemma handles_inv_request (cb : Callback) (s : State) :
  handles_inv s -> handles_inv (requestAnimationFrame cb s).2.
Proof.
  intros (Hnd & Hall & Hh). unfold handles_inv. simpl.
  rewrite fmap_app. simpl. repeat split.
  - apply NoDup_app. split; [exact Hnd|]. split; [|apply NoDup_singleton].
    intros x Hx [= ->]%list_elem_of_singleton.
    apply list_elem_of_fmap in Hx as ([h0 c0] & Heq & Hin). simpl in Heq.
    rewrite Forall_forall in Hall. specialize (Hall _ Hin). simpl in Hall. lia.
  - apply Forall_app. split.
    + eapply Forall_impl; [exact Hall|]. simpl. intros e He. lia.
    + constructor; [simpl; lia|constructor].
  - lia.
Qed.

Lemma Forall_filter_keep {A : Type} (P Q : A -> Prop)
    `{forall x, Decision (Q x)} (l : list A) :
  Forall P l -> Forall P (filter Q l).
Proof.
  rewrite !Forall_forall. intros Hl x Hx.
  apply list_elem_of_filter in Hx as [_ Hx]. auto.
Qed.

Lemma handles_inv_cancel (id : option Z) (s : State) :
  handles_inv s -> handles_inv (cancelAnimationFrame id s).
Proof.
  intros (Hnd & Hall & Hh). unfold handles_inv. simpl. repeat split.
  - clear Hall. induction (callbacks s) as [|e cbs IH]; [constructor|].
    simpl in Hnd. apply NoDup_cons in Hnd as [Hnot Hnd].
    rewrite filter_cons. destruct (decide _); [|now apply IH].
    simpl. apply NoDup_cons. split; [|now apply IH].
    intros Hin. apply Hnot.
    apply list_elem_of_fmap in Hin as (e' & Heq & Hin).
    apply list_elem_of_filter in Hin as [_ Hin].
    apply list_elem_of_fmap. eauto.
  - now apply Forall_filter_keep.
  - exact Hh.
Qed.

Section HandleFacts.
Variable host : Host.

Lemma render_handles_inv s : handles_inv s -> handles_inv (render host s).
Proof.
  intros Hi. pose proof (render_fields host s) as F. cbv zeta in F.
  destruct F as (_ & _ & _ & _ & _ & _ & _ & _ & _ & _ & F).
  destruct (prefersReduced s).
  - destruct F as (Fc & Fh & _). now apply (handles_inv_ext s).
  - destruct F as (Fc & Fh & _).
    apply (handles_inv_ext (requestAnimationFrame CbRender s).2);
      [exact Fc|exact Fh|]. now apply handles_inv_request.
Qed.

Lemma frame_handles_inv cx cy r t s :
  handles_inv s -> handles_inv (frame host cx cy r t s).
Proof.
  intros Hi. pose proof (frame_fields host cx cy r t s) as F. cbv zeta in F.
  destruct F as (_ & _ & _ & _ & _ & _ & _ & _ & _ & _ & _ & F).
  destruct (t + 16 <? duration); destruct F as (Fc & Fh).
  - apply (handles_inv_ext
             (requestAnimationFrame (CbFrame cx cy r (t + 16)) s).2);
      [exact Fc|exact Fh|]. now apply handles_inv_request.
  - now apply (handles_inv_ext s).
Qed.

Lemma run_frame_handles_inv s : handles_inv s -> handles_inv (run_frame host s).
Proof.
  intros (_ & _ & Hh). unfold run_frame.
  assert (H1 : handles_inv (set_callbacks [] (handle s) s)).
  { unfold handles_inv. simpl. repeat split; [constructor|constructor|exact Hh]. }
  revert H1. generalize (set_callbacks [] (handle s) s).
  induction (callbacks s) as [|[h0 cb] cbs IH]; intros s1 H1; simpl;
    [exact H1|].
  apply IH. unfold invoke. destruct cb as [|cx cy r t]; simpl snd.
  - now apply render_handles_inv.
  - now apply frame_handles_inv.
Qed.

Lemma step_handles_inv s e : handles_inv s -> handles_inv (step host s e).
Proof.
  intros Hi. destruct e; simpl.
  - pose proof (resize_fields host w h s) as F. cbv zeta in F.
    apply (handles_inv_ext s); [tauto..|exact Hi].
  - unfold on_change.
    assert (Hc : handles_inv (set_checked chk s))
      by (apply (handles_inv_ext s); [reflexivity..|exact Hi]).
    destruct chk; cbn [negb].
    + destruct (falsy _); [now apply render_handles_inv|exact Hc].
    + apply (handles_inv_ext (cancelAnimationFrame (rafId (set_checked false s))
                                (set_checked false s)));
        [reflexivity..|]. now apply handles_inv_cancel.
  - pose proof (on_randomize_fields host s) as F. cbv zeta in F.
    apply (handles_inv_ext s); [tauto..|exact Hi].
  - now apply handles_inv_request.
  - unfold on_visibilitychange. destruct hidden.
    + apply (handles_inv_ext (cancelAnimationFrame (rafId s) s));
        [reflexivity..|]. now apply handles_inv_cancel.
    + destruct (_ && _); [now apply render_handles_inv|exact Hi].
  - now apply run_frame_handles_inv.
  - pose proof (initParticles_fields host s) as F. cbv zeta in F.
    apply (handles_inv_ext s); [tauto..|exact Hi].
  - now apply handles_inv_request.
Qed.

Lemma run_handles_inv es : forall s,
  handles_inv s -> handles_inv (run host s es).
Proof.
  induction es as [|e es IH]; intros s Hi; simpl; [exact Hi|].
  apply IH. now apply step_handles_inv.
Qed.

Lemma boot_handles_inv w h reduced chk :
  handles_inv (boot host w h reduced chk).
Proof.
  unfold boot, start.
  set (s0 := mkState _ _ _ _ _ _ _ _ _ _ _ _ _ _).
  assert (H0 : handles_inv s0).
  { unfold handles_inv, s0. simpl. repeat split; [constructor|constructor|lia]. }
  assert (H1 : handles_inv (resize host w h s0)).
  { pose proof (resize_fields host w h s0) as F. cbv zeta in F.
    apply (handles_inv_ext s0); [tauto..|exact H0]. }
  apply handles_inv_ext with
    (s := if negb (prefersReduced (resize host w h s0))
          then render host (resize host w h s0) else resize host w h s0);
    try reflexivity.
  destruct (negb _); [now apply render_handles_inv|exact H1].
Qed.

End HandleFacts.

Lemma render_requests_elem (h : Z) (cbs : list (Z * Callback)) :
  h ∈ render_requests cbs -> (h, CbRender) ∈ cbs.
Proof.
  induction cbs as [|[h0 [|cx cy r t]] cbs IH]; simpl; intros Hin.
  - inversion Hin.
  - apply elem_of_cons in Hin as [->|Hin];
      [left|right; now apply IH].
  - right. now apply IH.
Qed.

Lemma nodup_fst_unique (cbs : list (Z * Callback)) (h : Z) (a b : Callback) :
  NoDup cbs.*1 -> (h, a) ∈ cbs -> (h, b) ∈ cbs -> a = b.
Proof.
  induction cbs as [|[h0 c0] cbs IH]; intros Hnd Ha Hb; [inversion Ha|].
  simpl in Hnd. apply NoDup_cons in Hnd as [Hnot Hnd].
  apply elem_of_cons in Ha as [Ha|Ha], Hb as [Hb|Hb].
  - congruence.
  - injection Ha as -> ->. exfalso. apply Hnot.
    apply list_elem_of_fmap. exists (h0, b). auto.
  - injection Hb as -> ->. exfalso. apply Hnot.
    apply list_elem_of_fmap. exists (h0, a). auto.
  - now apply IH.
Qed.

Lemma burst_requests_cancel (h : Z) (cbs : list (Z * Callback)) :
  (forall cx cy r t, (h, CbFrame cx cy r t) ∉ cbs) ->
  burst_requests (filter (fun e : Z * Callback => e.1 <> h) cbs)
  = burst_requests cbs.
Proof.
  induction cbs as [|[h0 cb] cbs IH]; intros Hno; [reflexivity|].
  assert (IH' : burst_requests (filter (fun e : Z * Callback => e.1 <> h) cbs)
                = burst_requests cbs).
  { apply IH. intros cx cy r t Hin. apply (Hno cx cy r t). now right. }
  rewrite filter_cons. simpl fst.
  destruct cb as [|cx cy r t].
  - destruct (decide (h0 <> h)); simpl; exact IH'.
  - destruct (decide (h0 <> h)) as [Hne|Heq]; simpl; [now rewrite IH'|].
    exfalso. apply (Hno cx cy r t).
    assert (h0 = h) as -> by (destruct (Z.eq_dec h0 h); [auto|contradiction]).
    now left.
Qed.

(** X9: stopping the loop never cancels a burst: after the motion toggle is
    unchecked, and after the document becomes hidden, the closures of the
    bursts that were pending are all still pending, with the same handles
    and clocks. *)
Theorem stop_keeps_bursts (host : Host) (w h : Z) (reduced chk : bool)
    (es : list Event) :
  let s := run host (boot host w h reduced chk) es in
  burst_requests (callbacks (step host s (MotionToggle false)))
  = burst_requests (callbacks s) /\
  burst_requests (callbacks (step host s (VisibilityChange true)))
  = burst_requests (callbacks s).
Proof.
  intros s.
  pose proof (run_loop_inv host es _ (boot_loop_inv host w h reduced chk)) as Hl.
  pose proof (run_handles_inv host es _ (boot_handles_inv host w h reduced chk))
    as Hh.
  fold s in Hl, Hh.
  assert (Hc : burst_requests
                 (callbacks (cancelAnimationFrame (rafId s) s))
               = burst_requests (callbacks s)).
  { simpl. apply burst_requests_cancel. intros cx cy r t Hin.
    destruct Hl as (Hrr & _). destruct Hh as (Hnd & Hall & _).
    destruct (rafId s) as [id|].
    - assert (Hr : (id, CbRender) ∈ callbacks s)
        by (apply render_requests_elem; rewrite Hrr; now left).
      pose proof (nodup_fst_unique _ _ _ _ Hnd Hr Hin). discriminate.
    - rewrite Forall_forall in Hall. specialize (Hall _ Hin). simpl in Hall.
      lia. }
  split; exact Hc.
Qed.

(** ** Clocks of the pending bursts *)

Lemma clock_ok_weaken (m m' : Z) (e : Z * Callback) :
  m' <= m -> clock_ok m e -> clock_ok m' e.
Proof.
  unfold clock_ok. destruct (e.2) as [|cx cy r t]; [auto|]. lia.
Qed.

Lemma burst_requests_clock (m : Z) (cbs : list (Z * Callback)) :
  duration <= m -> Forall (clock_ok m) cbs -> burst_requests cbs = [].
Proof.
  intros Hm. induction cbs as [|[h0 [|cx cy r t]] cbs IH]; intros Hf.
  - reflexivity.
  - inversion Hf; subst. simpl. auto.
  - inversion Hf as [|e l He Hl]; subst. unfold clock_ok in He. simpl in He.
    lia.
Qed.

Section ClockFacts.
Variable host : Host.

Lemma render_clock m s :
  Forall (clock_ok m) (callbacks s) ->
  Forall (clock_ok m) (callbacks (render host s)).
Proof.
  intros Hf. pose proof (render_fields host s) as F. cbv zeta in F.
  destruct F as (_ & _ & _ & _ & _ & _ & _ & _ & _ & _ & F).
  destruct (prefersReduced s); destruct F as (-> & _); [exact Hf|].
  apply Forall_app. split; [exact Hf|]. constructor; [exact I|constructor].
Qed.

Lemma frame_clock m cx cy r t s :
  m <= t < duration /\ t mod 16 = 0 ->
  Forall (clock_ok (m + 16)) (callbacks s) ->
  Forall (clock_ok (m + 16)) (callbacks (frame host cx cy r t s)).
Proof.
  intros [Ht Hmod] Hf.
  pose proof (frame_fields host cx cy r t s) as F. cbv zeta in F.
  destruct F as (_ & _ & _ & _ & _ & _ & _ & _ & _ & _ & _ & F).
  destruct (Z.ltb_spec (t + 16) duration) as [Hlt|Hge];
    destruct F as (-> & _); [|exact Hf].
  apply Forall_app. split; [exact Hf|]. constructor; [|constructor].
  unfold clock_ok. simpl. split; [lia|].
  replace (t + 16) with (t + 1 * 16) by lia. now rewrite Z.mod_add.
Qed.

Lemma fold_invoke_clock m cbs : forall s,
  Forall (clock_ok m) cbs ->
  Forall (clock_ok (m + 16)) (callbacks s) ->
  Forall (clock_ok (m + 16)) (callbacks (fold_left (invoke host) cbs s)).
Proof.
  induction cbs as [|[h0 cb] cbs IH]; intros s Hc Hs; simpl; [exact Hs|].
  inversion Hc as [|e l He Hl]; subst.
  apply IH; [exact Hl|]. unfold invoke. destruct cb as [|cx cy r t]; simpl snd.
  - now apply render_clock.
  - now apply frame_clock.
Qed.

Lemma run_frame_clock m s :
  Forall (clock_ok m) (callbacks s) ->
  Forall (clock_ok (m + 16)) (callbacks (run_frame host s)).
Proof.
  intros Hf. unfold run_frame. apply fold_invoke_clock; [exact Hf|].
  constructor.
Qed.

(** An event that is neither a frame nor a new burst leaves the clocks as
    they are; a frame moves every pending clock on by 16. *)
Lemma step_clock m s e :
  is_burst e = false ->
  Forall (clock_ok m) (callbacks s) ->
  Forall (clock_ok (if is_frame e then m + 16 else m))
         (callbacks (step host s e)).
Proof.
  intros Hb Hf. destruct e; simpl in *; try discriminate.
  - pose proof (resize_fields host w h s) as F. cbv zeta in F.
    destruct F as (_ & _ & _ & _ & _ & _ & _ & -> & _). exact Hf.
  - unfold on_change. destruct chk; cbn [negb].
    + destruct (falsy _); [now apply render_clock|exact Hf].
    + simpl. now apply Forall_filter_keep.
  - pose proof (on_randomize_fields host s) as F. cbv zeta in F.
    destruct F as (_ & _ & _ & _ & _ & _ & _ & _ & _ & _ & -> & _). exact Hf.
  - unfold on_visibilitychange. destruct hidden.
    + simpl. now apply Forall_filter_keep.
    + destruct (_ && _); [now apply render_clock|exact Hf].
  - now apply run_frame_clock.
  - pose proof (initParticles_fields host s) as F. cbv zeta in F.
    destruct F as (_ & _ & _ & _ & _ & _ & _ & -> & _). exact Hf.
Qed.

Lemma run_clock es : forall m s,
  forallb (fun e => negb (is_burst e)) es = true ->
  Forall (clock_ok m) (callbacks s) ->
  Forall (clock_ok (m + 16 * Z.of_nat (count_frames es)))
         (callbacks (run host s es)).
Proof.
  induction es as [|e es IH]; intros m s Hb Hf.
  - simpl. replace (m + 16 * Z.of_nat (count_frames [])) with m
      by (unfold count_frames; simpl; lia). exact Hf.
  - cbn [forallb] in Hb. apply andb_true_iff in Hb as [He Hb].
    apply negb_true_iff in He.
    pose proof (step_clock m s e He Hf) as Hs.
    cbn [run fold_left]. fold (run host (step host s e) es).
    unfold count_frames. cbn [List.filter]. fold (count_frames es).
    destruct (is_frame e).
    + specialize (IH _ _ Hb Hs). eapply Forall_impl; [exact IH|].
      intros x. apply clock_ok_weaken. unfold count_frames. cbn [length]. lia.
    + exact (IH _ _ Hb Hs).
Qed.

(** With new bursts allowed, the clocks still stay within [0, duration). *)
Lemma step_clock_any s e :
  Forall (clock_ok 0) (callbacks s) ->
  Forall (clock_ok 0) (callbacks (step host s e)).
Proof.
  intros Hf. destruct (is_burst e) eqn:Hb.
  - assert (Hnew : forall rect,
              Forall (clock_ok 0) (callbacks (burstLight rect s))).
    { intros rect. unfold burstLight. simpl.
      apply Forall_app. split; [exact Hf|]. constructor; [|constructor].
      unfold clock_ok, duration. simpl. split; [lia|reflexivity]. }
    destruct e; try discriminate; apply Hnew.
  - pose proof (step_clock 0 s e Hb Hf) as Hs.
    eapply Forall_impl; [exact Hs|]. intros x.
    apply clock_ok_weaken. destruct (is_frame e); lia.
Qed.

Lemma run_clock_any es : forall s,
  Forall (clock_ok 0) (callbacks s) ->
  Forall (clock_ok 0) (callbacks (run host s es)).
Proof.
  induction es as [|e es IH]; intros s Hf; simpl; [exact Hf|].
  apply IH. now apply step_clock_any.
Qed.

Lemma boot_clock w h reduced chk :
  Forall (clock_ok 0) (callbacks (boot host w h reduced chk)).
Proof.
  unfold boot, start.
  set (s0 := mkState _ _ _ _ _ _ _ _ _ _ _ _ _ _).
  change (callbacks (set_exported ?e ?s)) with (callbacks s).
  assert (H1 : Forall (clock_ok 0) (callbacks (resize host w h s0))).
  { pose proof (resize_fields host w h s0) as F. cbv zeta in F.
    destruct F as (_ & _ & _ & _ & _ & _ & _ & -> & _). constructor. }
  destruct (negb _); [now apply render_clock|exact H1].
Qed.

End ClockFacts.

(** X10: in every state the page can be in, the closure of every pending
    burst has a clock that is a multiple of 16 from 0 to 416: it has
    painted at most 26 times and will paint at least once more. *)
Theorem pending_burst_clocks (host : Host) (w h : Z) (reduced chk : bool)
    (es : list Event) :
  Forall (fun e : Z * Callback =>
            match e.2 with
            | CbRender => True
            | CbFrame _ _ _ t => 0 <= t <= 416 /\ t mod 16 = 0
            end)
         (callbacks (run host (boot host w h reduced chk) es)).
Proof.
  eapply Forall_impl;
    [apply (run_clock_any host es), boot_clock|].
  intros [h0 cb]. unfold clock_ok, duration. simpl.
  destruct cb as [|cx cy r t]; [auto|].
  intros [Ht Hm]. split; [|exact Hm].
  pose proof (Z.div_mod t 16 ltac:(lia)). lia.
Qed.

(** X11: every burst is over within 27 frames: after any events of which
    at least 27 are animation frames and none spawns a burst, no closure of
    a burst is pending, however many were pending before and whatever else
    (resizes, toggles, visibility changes) happened in between. *)
Theorem bursts_end_within_27_frames (host : Host) (w h : Z)
    (reduced chk : bool) (es1 es2 : list Event) :
  forallb (fun e => negb (is_burst e)) es2 = true ->
  (27 <= count_frames es2)%nat ->
  burst_requests
    (callbacks (run host (run host (boot host w h reduced chk) es1) es2)) = [].
Proof.
  intros Hb Hn.
  pose proof (run_clock_any host es1 _ (boot_clock host w h reduced chk)) as H1.
  pose proof (run_clock host es2 0 _ Hb H1) as H2.
  apply (burst_requests_clock (0 + 16 * Z.of_nat (count_frames es2)));
    [unfold duration; lia|exact H2].
Qed.

(** ** Bursts and the particle field *)

Lemma view_eq (s s' : State) :
  view s = view s' <->
  W s = W s' /\ H s = H s' /\ PARTICLE_COUNT s = PARTICLE_COUNT s' /\
  prefersReduced s = prefersReduced s' /\ palette s = palette s' /\
  arrays s = arrays s' /\ particles s = particles s' /\ seed s = seed s' /\
  checked s = checked s' /\ exported s = exported s' /\
  running s = running s'.
Proof.
  unfold view. split.
  - intros [= E1 E2 E3 E4 E5 E6 E7 E8 E9 E10 E11]. repeat split; assumption.
  - intros (E1 & E2 & E3 & E4 & E5 & E6 & E7 & E8 & E9 & E10 & E11).
    now rewrite E1, E2, E3, E4, E5, E6, E7, E8, E9, E10, E11.
Qed.

Ltac view_split H :=
  apply view_eq in H;
  destruct H as (HW & HH & HPC & Hred & Hpal & Harr & Hpart & Hseed &
                 Hchk & Hexp & Hrun).

Ltac view_fields :=
  apply view_eq; unfold running in *;
  cbn [W H PARTICLE_COUNT prefersReduced palette arrays particles seed
       checked exported rafId handle set_seed set_bitmap set_pool set_rafId
       set_callbacks set_checked set_dims set_palette
       requestAnimationFrame cancelAnimationFrame fst snd] in *;
  repeat split; try assumption; try reflexivity; try congruence.

Section ViewFacts.
Variable host : Host.

Lemma initParticles_view s s' :
  view s = view s' ->
  view (initParticles host s) = view (initParticles host s').
Proof.
  intros Hv. view_split Hv. unfold initParticles.
  rewrite HW, HH, HPC, Hpal, Harr, Hseed.
  destruct (push_particles host _ (W s') (H s') (palette s') [] (seed s'))
    as [ps sd].
  view_fields.
Qed.

Lemma resize_view w h s s' :
  view s = view s' -> view (resize host w h s) = view (resize host w h s').
Proof.
  intros Hv. unfold resize. apply initParticles_view.
  view_split Hv. view_fields.
Qed.

Lemma on_randomize_view s s' :
  view s = view s' -> view (on_randomize host s) = view (on_randomize host s').
Proof.
  intros Hv. view_split Hv. unfold on_randomize. rewrite Hpal, Hseed.
  destruct (randomize host (palette s') (seed s')) as [pal sd].
  view_fields.
Qed.

Lemma render_view s s' :
  0 <= handle s -> 0 <= handle s' ->
  view s = view s' -> view (render host s) = view (render host s').
Proof.
  intros Hh Hh' Hv. view_split Hv. unfold render.
  cbn [W H palette seed set_bitmap].
  change (pool (set_bitmap [FillOverlay (W s) (H s)] s)) with (pool s).
  change (pool (set_bitmap [FillOverlay (W s') (H s')] s')) with (pool s').
  assert (Hpool : pool s = pool s') by (unfold pool; now rewrite Harr, Hpart).
  rewrite HW, HH, Hpal, Hseed, Hpool.
  destruct (update_draw host (W s') (H s') (palette s') (pool s') (seed s'))
    as [[ps paints] sd].
  cbn [prefersReduced set_seed set_bitmap set_pool]. rewrite Hred.
  destruct (prefersReduced s') eqn:Er'; cbn [negb].
  - view_fields.
  - assert (E1 : falsy (Some (handle s + 1)) = false)
      by (simpl; destruct (Z.eqb_spec (handle s + 1) 0); [lia|reflexivity]).
    assert (E2 : falsy (Some (handle s' + 1)) = false)
      by (simpl; destruct (Z.eqb_spec (handle s' + 1) 0); [lia|reflexivity]).
    view_fields.
Qed.

Lemma frame_view cx cy r t s : view (frame host cx cy r t s) = view s.
Proof.
  unfold frame, tick. destruct (t + 16 <? duration); reflexivity.
Qed.

Lemma burstLight_view rect s : view (burstLight rect s) = view s.
Proof. reflexivity. Qed.

Lemma fold_invoke_view cbs : forall s,
  frame_inv cbs s ->
  view (fold_left (invoke host) cbs s)
  = match render_requests cbs with
    | [] => view s
    | _ :: _ => view (render host s)
    end.
Proof.
  induction cbs as [|[h0 cb] cbs IH]; intros s Hf; [reflexivity|].
  pose proof (invoke_frame_inv host _ _ _ Hf) as Hf'.
  cbn [fold_left]. rewrite (IH _ Hf'). clear IH.
  destruct cb as [|cx cy r t]; unfold invoke in *; cbn [snd] in *.
  - destruct Hf as (_ & _ & _ & [[Habs _]|(h1 & Hone & _)]); [discriminate|].
    simpl in Hone. injection Hone as _ Hrest. now rewrite Hrest.
  - cbn [render_requests]. destruct (render_requests cbs); [apply frame_view|].
    apply render_view; [apply Hf'|apply Hf|apply frame_view].
Qed.

Lemma run_frame_view s :
  loop_inv s ->
  view (run_frame host s)
  = if running s then view (render host s) else view s.
Proof.
  intros (Hrr & Hred & Hpos & Hh). unfold run_frame.
  assert (Hf : frame_inv (callbacks s) (set_callbacks [] (handle s) s)).
  { unfold frame_inv. simpl. repeat split; auto.
    destruct (rafId s) as [id|] eqn:Er.
    - right. exists id. repeat split; [exact Hrr|].
      destruct (prefersReduced s); [|reflexivity].
      specialize (Hred eq_refl). discriminate.
    - left. auto. }
  rewrite (fold_invoke_view _ _ Hf), Hrr. unfold running.
  destruct (rafId s) as [id|] eqn:Er.
  - specialize (Hpos id eq_refl). simpl.
    destruct (Z.eqb_spec id 0); [lia|]. simpl.
    apply render_view; [exact Hh|exact Hh|].
    view_fields.
  - simpl. view_fields.
Qed.

Lemma stop_view s s' :
  view s = view s' ->
  view (set_rafId None (cancelAnimationFrame (rafId s) s))
  = view (set_rafId None (cancelAnimationFrame (rafId s') s')).
Proof.
  intros Hv. view_split Hv. view_fields.
Qed.

Lemma set_checked_view chk s s' :
  view s = view s' -> view (set_checked chk s) = view (set_checked chk s').
Proof.
  intros Hv. view_split Hv. apply view_eq. unfold running in *. simpl.
  repeat split; try assumption; reflexivity.
Qed.

Lemma falsy_running s : falsy (rafId s) = negb (running s).
Proof. unfold running. now rewrite negb_involutive. Qed.

(** The same event, other than one that spawns a burst, on two states with
    the same view. *)
Lemma step_view s s' e :
  is_burst e = false -> loop_inv s -> loop_inv s' ->
  view s = view s' -> view (step host s e) = view (step host s' e).
Proof.
  intros Hb Hi Hi' Hv. destruct e; simpl in *; try discriminate.
  - now apply resize_view.
  - unfold on_change. pose proof (set_checked_view chk _ _ Hv) as Hc.
    destruct chk; cbn [negb].
    + rewrite !falsy_running.
      replace (running (set_checked true s))
        with (running (set_checked true s'))
        by (apply view_eq in Hc; symmetry; apply Hc).
      destruct (running (set_checked true s')); cbn [negb]; [exact Hc|].
      apply render_view; [apply Hi|apply Hi'|exact Hc].
    + pose proof (stop_view _ _ Hc) as Hs. view_split Hs. view_fields.
  - now apply on_randomize_view.
  - unfold on_visibilitychange. destruct hidden; [now apply stop_view|].
    rewrite !falsy_running. pose proof Hv as Hv'. view_split Hv'.
    rewrite Hrun, Hchk, Hred.
    destruct (negb (running s') && checked s' && negb (prefersReduced s'));
      [|exact Hv].
    apply render_view; [apply Hi|apply Hi'|exact Hv].
  - rewrite !run_frame_view by assumption.
    pose proof Hv as Hv'. view_split Hv'. rewrite Hrun.
    destruct (running s'); [|exact Hv].
    apply render_view; [apply Hi|apply Hi'|exact Hv].
  - now apply initParticles_view.
Qed.

Lemma run_view es : forall s s',
  loop_inv s -> loop_inv s' -> view s = view s' ->
  view (run host s es)
  = view (run host s' (List.filter (fun e => negb (is_burst e)) es)).
Proof.
  induction es as [|e es IH]; intros s s' Hi Hi' Hv; [exact Hv|].
  cbn [List.filter run fold_left]. fold (run host (step host s e) es).
  destruct (is_burst e) eqn:Hb; cbn [negb].
  - apply IH; [now apply step_loop_inv|exact Hi'|].
    rewrite <- Hv. destruct e; try discriminate; apply burstLight_view.
  - cbn [run fold_left].
    apply IH; [now apply step_loop_inv..|]. now apply step_view.
Qed.

End ViewFacts.

(** X12: bursts never disturb the particle field or the loop: dropping from
    any sequence of events all those that spawn a burst (key activations,
    calls of the exported [burstLight]) leaves the page with the same
    dimensions, palette, arrays (every particle identical), random cursor,
    toggle state, exported reference and running status. *)
Theorem bursts_do_not_interfere (host : Host) (w h : Z) (reduced chk : bool)
    (es : list Event) :
  view (run host (boot host w h reduced chk) es)
  = view (run host (boot host w h reduced chk)
            (List.filter (fun e => negb (is_burst e)) es)).
Proof.
  apply run_view; [apply boot_loop_inv..|reflexivity].
Qed.

(** ** Sizes and draws *)

Lemma Math_round_area (n : Z) :
  Math_round (inject_Z n / 70000) = (2 * n + 70000) / 140000.
Proof.
  unfold Math_round, Qfloor, Qplus, Qdiv, Qmult, Qinv, inject_Z. simpl.
  f_equal. lia.
Qed.

Section DrawFacts.
Variable host : Host.




End DrawFacts.

(** X13: the pool has 20 particles for every startup viewport of fewer
    than 1,435,000 square pixels, and (2*area + 70000) div 140000 particles,
    which is at least 21, from there on: [Math.round] takes halves up, so
    the floor of 20 stops applying exactly at 20.5 * 70000. *)
Theorem pool_size_by_area (host : Host) (w0 h0 : Z) (reduced chk : bool)
    (es : list Event) :
  length (pool (run host (boot host w0 h0 reduced chk) es))
  = (if w0 * h0 <? 1435000 then 20%nat
     else Z.to_nat ((2 * (w0 * h0) + 70000) / 140000)) /\
  (20 <= length (pool (run host (boot host w0 h0 reduced chk) es)))%nat.
Proof.
  pose proof (boot_heap_inv host w0 h0 reduced chk) as [Hb _].
  pose proof (run_stable host _ (heap_inv_stable _) es _ Hb) as Hr.
  destruct Hr as (_ & (ps & Hps & Hlen) & _).
  unfold pool. rewrite Hps. change (default [] (Some ps)) with ps.
  rewrite Hlen, Math_round_area.
  split; [|lia].
  destruct (Z.ltb_spec (w0 * h0) 1435000) as [Hlt|Hge].
  - assert ((2 * (w0 * h0) + 70000) / 140000 < 21)
      by (apply Z.div_lt_upper_bound; lia).
    lia.
  - assert (21 <= (2 * (w0 * h0) + 70000) / 140000)
      by (apply Z.div_le_lower_bound; lia).
    f_equal. lia.
Qed.



(** ** Order of the callbacks within a frame *)

Section OrderFacts.
Variable host : Host.

Lemma frame_bitmap_eq cx cy r t s :
  bitmap (frame host cx cy r t s) = bitmap s ++ [burst_paint host cx cy r t].
Proof.
  unfold frame, burst_paint, tick. destruct (t + 16 <? duration); reflexivity.
Qed.

Lemma frame_pool cx cy r t s : pool (frame host cx cy r t s) = pool s.
Proof.
  unfold frame, tick. destruct (t + 16 <? duration); reflexivity.
Qed.

Lemma frame_dims cx cy r t s :
  W (frame host cx cy r t s) = W s /\ H (frame host cx cy r t s) = H s /\
  palette (frame host cx cy r t s) = palette s /\
  seed (frame host cx cy r t s) = seed s.
Proof.
  unfold frame, tick. destruct (t + 16 <? duration); repeat split.
Qed.

(** Closures of bursts only add their fills. *)
Lemma fold_bursts cbs : forall s,
  render_requests cbs = [] ->
  bitmap (fold_left (invoke host) cbs s) = bitmap s ++ burst_paints host cbs /\
  pool (fold_left (invoke host) cbs s) = pool s /\
  W (fold_left (invoke host) cbs s) = W s /\
  H (fold_left (invoke host) cbs s) = H s /\
  palette (fold_left (invoke host) cbs s) = palette s /\
  seed (fold_left (invoke host) cbs s) = seed s.
Proof.
  induction cbs as [|[h0 [|cx cy r t]] cbs IH]; intros s Hn.
  - simpl. rewrite app_nil_r. repeat split.
  - discriminate.
  - simpl in Hn. cbn [fold_left invoke snd burst_paints].
    destruct (IH (frame host cx cy r t s) Hn) as (-> & -> & -> & -> & -> & ->).
    rewrite frame_bitmap_eq, frame_pool, <- app_assoc.
    destruct (frame_dims cx cy r t s) as (-> & -> & -> & ->).
    repeat split.
Qed.

End OrderFacts.

(** X16: within one animation frame the callbacks run in the order they
    were requested, and [render] wipes what ran before it: if the request
    for [render] is pending among closures of bursts, then after the frame
    the surface holds the overlay, one flake per particle and, on top, the
    fills of exactly those bursts that were requested after [render]; the
    bursts requested before it have painted in vain. *)
Theorem frame_paints_in_request_order (host : Host) (s : State)
    (pre post : list (Z * Callback)) (id : Z) :
  callbacks s = pre ++ (id, CbRender) :: post ->
  render_requests pre = [] -> render_requests post = [] ->
  let s' := step host s AnimationFrame in
  bitmap s'
  = FillOverlay (W s) (H s) :: map draw (pool s') ++ burst_paints host post /\
  pool s'
  = (update_draw host (W s) (H s) (palette s) (pool s) (seed s)).1.1.
Proof.
  intros Hc Hpre Hpost s'. unfold s'. cbn [step]. unfold run_frame.
  rewrite Hc, fold_left_app. cbn [fold_left invoke snd].
  set (s1 := fold_left (invoke host) pre (set_callbacks [] (handle s) s)).
  destruct (fold_bursts host pre (set_callbacks [] (handle s) s) Hpre)
    as (_ & Hp1 & HW1 & HH1 & Hpal1 & Hsd1).
  fold s1 in Hp1, HW1, HH1, Hpal1, Hsd1.
  destruct (fold_bursts host post (render host s1) Hpost)
    as (-> & -> & _).
  rewrite render_bitmap_eq, render_pool_eq, HW1, HH1, Hpal1, Hsd1, Hp1.
  split; reflexivity.
Qed.

(** ** When the exported array is the pool *)

Section ExportFacts.
Variable host : Host.

Lemma render_particles s :
  particles (render host s) = particles s /\
  exported (render host s) = exported s /\
  forall l, is_Some (arrays s !! l) -> is_Some (arrays (render host s) !! l).
Proof.
  pose proof (render_fields host s) as F. cbv zeta in F.
  destruct F as (_ & _ & _ & _ & _ & _ & Fe & Fp & Fa & _).
  split; [exact Fp|]. split; [exact Fe|].
  intros l Hl. rewrite Fa. apply lookup_insert_is_Some'. now right.
Qed.

Lemma run_frame_particles s :
  particles (run_frame host s) = particles s /\
  exported (run_frame host s) = exported s /\
  forall l, is_Some (arrays s !! l) ->
            is_Some (arrays (run_frame host s) !! l).
Proof.
  unfold run_frame.
  change (particles s) with (particles (set_callbacks [] (handle s) s)).
  change (exported s) with (exported (set_callbacks [] (handle s) s)).
  change (arrays s) with (arrays (set_callbacks [] (handle s) s)).
  generalize (set_callbacks [] (handle s) s).
  induction (callbacks s) as [|[h0 cb] cbs IH]; intros s1; simpl.
  - auto.
  - unfold invoke at 2 4 6. destruct cb as [|cx cy r t]; simpl snd.
    + destruct (IH (render host s1)) as (-> & -> & Hs).
      destruct (render_particles s1) as (-> & -> & Hr). auto.
    + destruct (IH (frame host cx cy r t s1)) as (-> & -> & Hs).
      pose proof (frame_fields host cx cy r t s1) as F. cbv zeta in F.
      destruct F as (_ & _ & _ & _ & _ & _ & Fe & Fp & Fa & _).
      rewrite Fp, Fe. rewrite Fa in Hs. auto.
Qed.

(** An event that does not re-initialize keeps the array [particles]
    refers to; one that does makes it refer to a new array. *)
Lemma step_particles s e :
  exported (step host s e) = exported s /\
  (forall l, is_Some (arrays s !! l) -> is_Some (arrays (step host s e) !! l))
  /\
  particles (step host s e)
  = if is_reinit e then fresh (dom (arrays s)) else particles s.
Proof.
  destruct e; simpl.
  - pose proof (resize_fields host w h s) as F. cbv zeta in F.
    destruct F as (_ & _ & _ & _ & _ & _ & _ & _ & _ & _ & Fe & Fp & Fa).
    rewrite Fe, Fp, Fa. repeat split.
    intros l Hl. apply lookup_insert_is_Some'. now right.
  - unfold on_change. destruct chk; cbn [negb]; [|auto].
    destruct (falsy _); [|auto].
    destruct (render_particles (set_checked true s)) as (-> & -> & Hr). auto.
  - pose proof (on_randomize_fields host s) as F. cbv zeta in F.
    destruct F as (_ & _ & _ & _ & _ & Fe & Fp & Fa & _).
    rewrite Fe, Fp, Fa. auto.
  - auto.
  - unfold on_visibilitychange. destruct hidden; [auto|].
    destruct (_ && _); [|auto].
    destruct (render_particles s) as (-> & -> & Hr). auto.
  - destruct (run_frame_particles s) as (-> & -> & Hr). auto.
  - pose proof (initParticles_fields host s) as F. cbv zeta in F.
    destruct F as (_ & _ & _ & _ & _ & _ & _ & _ & _ & _ & Fe & Fp & Fa).
    rewrite Fe, Fp, Fa. repeat split.
    intros l Hl. apply lookup_insert_is_Some'. now right.
  - auto.
Qed.

Lemma run_exported es : forall s l (b : bool),
  exported s = Some l -> is_Some (arrays s !! l) ->
  (if b then l <> particles s else l = particles s) ->
  exported (run host s es) = Some l /\
  if b || existsb is_reinit es
  then l <> particles (run host s es) else l = particles (run host s es).
Proof.
  induction es as [|e es IH]; intros s l b He Hl Hb.
  - simpl. rewrite orb_false_r. auto.
  - cbn [run fold_left existsb]. fold (run host (step host s e) es).
    destruct (step_particles s e) as (Fe & Fa & Fp).
    replace (b || (is_reinit e || existsb is_reinit es))
      with ((b || is_reinit e) || existsb is_reinit es)
      by now destruct b, (is_reinit e).
    apply IH; [now rewrite Fe|now apply Fa|].
    rewrite Fp. destruct (is_reinit e).
    + rewrite orb_true_r. intros Heq. apply elem_of_dom in Hl.
      rewrite Heq in Hl. exact (is_fresh _ Hl).
    + rewrite orb_false_r. exact Hb.
Qed.

End ExportFacts.

(** X17: the array exported for debugging is the pool exactly as long as
    no resize and no call of the exported [initParticles] has happened
    since loading. *)
Theorem exported_is_pool_until_reinit (host : Host) (w h : Z)
    (reduced chk : bool) (es : list Event) :
  let s := run host (boot host w h reduced chk) es in
  if existsb is_reinit es
  then exported s <> Some (particles s)
  else exported s = Some (particles s).
Proof.
  intros s.
  pose proof (boot_heap_inv host w h reduced chk) as [(_ & _ & Hex) He].
  destruct (run_exported host es _ _ false He (Hex _ He) eq_refl) as [Hr Hp].
  fold s in Hr, Hp. cbn [orb] in Hp. rewrite Hr.
  destruct (existsb is_reinit es); congruence.
Qed.

(** ** Pointer parallax *)

Lemma ratio_within_one (c v : Q) :
  (0 < c)%Q -> (0 <= v)%Q -> (v <= 2 * c)%Q ->
  (-1 <= (v - c) / c)%Q /\ ((v - c) / c <= 1)%Q.
Proof.
  intros Hc H0 H1. split.
  - apply Qle_shift_div_l; [exact Hc|]. lra.
  - apply Qle_shift_div_r; [exact Hc|]. lra.
Qed.

(** X18: while the pointer is inside a viewport with positive sides, the
    pointermove listener tilts the keyboard by at most 6 degrees about the
    x axis and at most 8 degrees about the y axis, and by nothing when the
    pointer is at the centre; under reduced motion it assigns nothing. *)
Theorem parallax_tilt_bounded (host : Host) (s : State)
    (innerWidth innerHeight : Z) (clientX clientY : Q) :
  0 < innerWidth -> 0 < innerHeight ->
  (0 <= clientX /\ clientX <= inject_Z innerWidth)%Q ->
  (0 <= clientY /\ clientY <= inject_Z innerHeight)%Q ->
  let '(ax, ay) := tilt innerWidth innerHeight clientX clientY in
  (-6 <= ax /\ ax <= 6 /\ -8 <= ay /\ ay <= 8)%Q /\
  (let '(cx, cy) := tilt innerWidth innerHeight
                      (inject_Z innerWidth / 2) (inject_Z innerHeight / 2) in
   cx == 0 /\ cy == 0)%Q /\
  (prefersReduced s = true ->
   on_pointermove host s innerWidth innerHeight clientX clientY = None) /\
  (prefersReduced s = false ->
   is_Some (on_pointermove host s innerWidth innerHeight clientX clientY)).
Proof.
  intros Hw Hh [Hx0 Hx1] [Hy0 Hy1]. unfold on_pointermove, tilt.
  assert (Hcx : (0 < inject_Z innerWidth / 2)%Q).
  { apply Qlt_shift_div_l; [reflexivity|].
    change (0 * 2)%Q with (inject_Z 0). now rewrite <- Zlt_Qlt. }
  assert (Hcy : (0 < inject_Z innerHeight / 2)%Q).
  { apply Qlt_shift_div_l; [reflexivity|].
    change (0 * 2)%Q with (inject_Z 0). now rewrite <- Zlt_Qlt. }
  assert (Ex : (2 * (inject_Z innerWidth / 2) == inject_Z innerWidth)%Q)
    by (field).
  assert (Ey : (2 * (inject_Z innerHeight / 2) == inject_Z innerHeight)%Q)
    by (field).
  destruct (ratio_within_one _ clientX Hcx Hx0) as [X0 X1];
    [rewrite Ex; exact Hx1|].
  destruct (ratio_within_one _ clientY Hcy Hy0) as [Y0 Y1];
    [rewrite Ey; exact Hy1|].
  split; [repeat split; lra|]. split.
  - split; unfold Qdiv; ring.
  - split; intros ->; [reflexivity|eauto].
Qed.

(** ** Instances of the further properties *)



Lemma pool_colours_defined_witness :
  random_ok sample_host /\
  length (palette (run sample_host (boot sample_host 700 700 false true)
                     [RandomizeClick; AnimationFrame])) = 4%nat /\
  Forall (fun p => is_Some (Particle.color p))
    (pool (run sample_host (boot sample_host 700 700 false true)
             [RandomizeClick; AnimationFrame])).
Proof.
  split; [exact sample_host_random_ok|].
  exact (pool_colours_defined sample_host 700 700 false true
           [RandomizeClick; AnimationFrame] sample_host_random_ok).
Defined.

Lemma pool_within_vertical_bounds_witness :
  let es := [AnimationFrame; Resize 900 600; AnimationFrame] in
  0 <= 700 /\ Forall viewport_ok es /\
  Forall (y_ok (H (run sample_host (boot sample_host 700 700 false true) es)))
    (pool (run sample_host (boot sample_host 700 700 false true) es)).
Proof.
  intros es.
  assert (H0 : 0 <= 700) by lia.
  assert (Hv : Forall viewport_ok es).
  { constructor; [exact I|]. constructor; [split; lia|].
    constructor; [exact I|constructor]. }
  split; [exact H0|]. split; [exact Hv|].
  exact (pool_within_vertical_bounds sample_host 700 700 false true es
           sample_host_random_ok H0 H0 Hv).
Defined.

Lemma bursts_end_within_27_frames_witness :
  let es1 := [Activate sample_rect; AnimationFrame; Activate sample_rect] in
  let es2 := MotionToggle false :: frames 27 in
  forallb (fun e => negb (is_burst e)) es2 = true /\
  (27 <= count_frames es2)%nat /\
  burst_requests
    (callbacks (run sample_host
                  (run sample_host (boot sample_host 700 700 false true) es1)
                  es2)) = [].
Proof.
  intros es1 es2.
  assert (Hb : forallb (fun e => negb (is_burst e)) es2 = true) by reflexivity.
  assert (Hn : (27 <= count_frames es2)%nat) by (vm_compute; lia).
  split; [exact Hb|]. split; [exact Hn|].
  exact (bursts_end_within_27_frames sample_host 700 700 false true es1 es2
           Hb Hn).
Defined.



(** A burst spawned while the loop is stopped runs ahead of [render] once
    the loop is started again, and is wiped in every frame. *)
Lemma frame_paints_in_request_order_witness :
  let s := run sample_host (boot sample_host 700 700 false true)
             [MotionToggle false; Activate sample_rect; MotionToggle true] in
  let pre := [(2, CbFrame (260 # 2) (128 # 2) 96.0 0)] in
  let s' := step sample_host s AnimationFrame in
  callbacks s = pre ++ (3, CbRender) :: [] /\
  render_requests pre = [] /\
  bitmap s' = FillOverlay (W s) (H s) :: map draw (pool s') ++ [].
Proof.
  intros s pre s'.
  assert (Hc : callbacks s = pre ++ (3, CbRender) :: [])
    by (vm_compute; reflexivity).
  assert (Hp : render_requests pre = []) by reflexivity.
  split; [exact Hc|]. split; [exact Hp|].
  exact (proj1 (frame_paints_in_request_order sample_host s pre [] 3
                  Hc Hp eq_refl)).
Defined.

Lemma parallax_tilt_bounded_witness :
  let s := boot sample_host 700 700 false true in
  0 < 1280 /\ 0 < 720 /\
  (0 <= 1000 /\ 1000 <= inject_Z 1280)%Q /\
  (0 <= 90 /\ 90 <= inject_Z 720)%Q /\
  let '(ax, ay) := tilt 1280 720 1000 90 in
  (-6 <= ax /\ ax <= 6 /\ -8 <= ay /\ ay <= 8)%Q.
Proof.
  intros s.
  assert (Hw : 0 < 1280) by lia. assert (Hh : 0 < 720) by lia.
  assert (Hx : (0 <= 1000 /\ 1000 <= inject_Z 1280)%Q)
    by (split; discriminate).
  assert (Hy : (0 <= 90 /\ 90 <= inject_Z 720)%Q) by (split; discriminate).
  split; [exact Hw|]. split; [exact Hh|]. split; [exact Hx|].
  split; [exact Hy|].
  exact (proj1 (parallax_tilt_bounded sample_host s 1280 720 1000 90
                  Hw Hh Hx Hy)).
Defined.
